(** * DockerizedLaravel: input validators and secrets generator

    A shallow embedding of [filter_plugins/validation.py] (the Ansible
    filter plugin [FilterModule]) and of [scripts/generate_passwords.py],
    with the properties the specification states about them.

    Conventions of the embedding.
    - A Python [str] is a Rocq [string]; each [ascii] stands for the code
      point of the same number, so the strings modelled are those whose
      code points lie in 0..255.
    - A Python [float] is an IEEE-754 value of [SpecFloat.spec_float].
    - A call either returns a value or raises: [result].
    - The secure random source is an explicit tape of draws that is
      threaded through the generator. *)

From Stdlib Require Import ZArith NArith List Bool Ascii String Lia.
From Stdlib Require Import DecimalString DecimalFacts DecimalPos.
From Stdlib Require Import Floats.SpecFloat.
Import ListNotations.

Set Warnings "-register-all".

Local Open Scope string_scope.
Local Open Scope Z_scope.

(** ** Python values and outcomes *)

Module Py.

Inductive exn : Type :=
| ValueError
| TypeError
| OverflowError
| KeyError
| IndexError.

Inductive result (A : Type) : Type :=
| Return (a : A)
| Raise (e : exn).

Arguments Return {A} a.
Arguments Raise {A} e.

(** The values an Ansible template can hand to a filter: the YAML data
    model (null, booleans, integers, floats, strings, sequences and
    mappings). *)
Inductive value : Type :=
| PyNone
| PyBool (b : bool)
| PyInt (n : Z)
| PyFloat (f : spec_float)
| PyStr (s : string)
| PyList (l : list value)
| PyDict (d : list (value * value)).

(** *** Characters *)

Definition code (c : ascii) : nat := nat_of_ascii c.

Definition in_range (lo hi : ascii) (c : ascii) : bool :=
  (code lo <=? code c)%nat && (code c <=? code hi)%nat.

Definition is_digit (c : ascii) : bool := in_range "0" "9" c.
Definition is_upper (c : ascii) : bool := in_range "A" "Z" c.
Definition is_lower (c : ascii) : bool := in_range "a" "z" c.
Definition is_alnum (c : ascii) : bool :=
  is_lower c || is_upper c || is_digit c.

(** Unicode white space among the code points 0..255: TAB..CR, FS..US,
    SPACE, NEL and NBSP.  It is what [str.strip], [int] and the regular
    expression class [\s] treat as space. *)
Definition is_space (c : ascii) : bool :=
  let n := code c in
  ((9 <=? n) && (n <=? 13) || (28 <=? n) && (n <=? 32)
   || (n =? 133) || (n =? 160))%nat.

Definition nl : ascii := "010".
Definition dquote : ascii := "034".
Definition squote : ascii := "039".
Definition backslash : ascii := "092".

Definition str1 (c : ascii) : string := String c EmptyString.

(** *** [str.strip] *)

Fixpoint lstrip (s : string) : string :=
  match s with
  | EmptyString => EmptyString
  | String c r => if is_space c then lstrip r else s
  end.

Fixpoint rstrip (s : string) : string :=
  match s with
  | EmptyString => EmptyString
  | String c r =>
      match rstrip r with
      | EmptyString => if is_space c then EmptyString else str1 c
      | r' => String c r'
      end
  end.

Definition strip (s : string) : string := rstrip (lstrip s).

(** *** [int(x)] *)

Definition digit_value (c : ascii) : Z := Z.of_nat (code c - code "0").

(** Decimal digits, a single underscore allowed between two digits. *)
Fixpoint digits_value (acc : Z) (after_digit : bool) (s : string)
    : option Z :=
  match s with
  | EmptyString => if after_digit then Some acc else None
  | String c r =>
      if is_digit c then digits_value (10 * acc + digit_value c) true r
      else if Ascii.eqb c "_" && after_digit then digits_value acc false r
      else None
  end.

(** [int(s)] for a string, base 10: surrounding white space, an optional
    sign, then the digits.  (The interpreter's configurable cap on the
    number of digits is not part of the model.) *)
Definition int_of_str (s : string) : result Z :=
  let t := strip s in
  let '(negative, body) :=
    match t with
    | String "-" r => (true, r)
    | String "+" r => (false, r)
    | _ => (false, t)
    end in
  match digits_value 0 false body with
  | Some n => Return (if negative then - n else n)
  | None => Raise ValueError
  end.

(** [int(f)] for a float: truncation towards zero; NaN raises
    [ValueError] and an infinity raises [OverflowError]. *)
Definition int_of_float (f : spec_float) : result Z :=
  match f with
  | S754_zero _ => Return 0
  | S754_infinity _ => Raise OverflowError
  | S754_nan => Raise ValueError
  | S754_finite s m e =>
      let n := Z.shiftl (Z.pos m) e in
      Return (if s then - n else n)
  end.

Definition int (v : value) : result Z :=
  match v with
  | PyInt n => Return n
  | PyBool b => Return (if b then 1 else 0)
  | PyFloat f => int_of_float f
  | PyStr s => int_of_str s
  | PyNone | PyList _ | PyDict _ => Raise TypeError
  end.

(** *** [str(x)] and [repr(x)] *)

Definition hex_digit (n : nat) : ascii :=
  nth n (list_ascii_of_string "0123456789abcdef") "0"%char.

Definition hex2 (c : ascii) : string :=
  String (hex_digit (code c / 16)) (str1 (hex_digit (code c mod 16))).

Definition is_printable (c : ascii) : bool :=
  let n := code c in
  ((32 <=? n) && (n <? 127) || (161 <=? n) && negb (n =? 173))%nat.

Fixpoint contains (s : string) (c : ascii) : bool :=
  match s with
  | EmptyString => false
  | String d r => Ascii.eqb d c || contains r c
  end.

Definition repr_char (quote c : ascii) : string :=
  if Ascii.eqb c quote || Ascii.eqb c backslash then String backslash (str1 c)
  else if Ascii.eqb c "009" then String backslash "t"
  else if Ascii.eqb c "010" then String backslash "n"
  else if Ascii.eqb c "013" then String backslash "r"
  else if is_printable c then str1 c
  else String backslash (String "x" (hex2 c)).

Fixpoint repr_chars (quote : ascii) (s : string) : string :=
  match s with
  | EmptyString => EmptyString
  | String c r => repr_char quote c ++ repr_chars quote r
  end.

Definition repr_str (s : string) : string :=
  let quote :=
    if contains s squote && negb (contains s dquote) then dquote
    else squote in
  String quote (repr_chars quote s ++ str1 quote).

Definition repr_int (n : Z) : string := NilZero.string_of_int (Z.to_int n).

Section Str.

(** The shortest decimal that reads back as the float: the interpreter's
    [float.__repr__], taken as given. *)
Variable float_repr : spec_float -> string.

Fixpoint repr (v : value) : string :=
  match v with
  | PyNone => "None"
  | PyBool b => if b then "True" else "False"
  | PyInt n => repr_int n
  | PyFloat f => float_repr f
  | PyStr s => repr_str s
  | PyList l => "[" ++ String.concat ", " (map repr l) ++ "]"
  | PyDict d =>
      "{"
      ++ String.concat ", "
           (map (fun kv => let '(k, x) := kv in repr k ++ ": " ++ repr x) d)
      ++ "}"
  end.

Definition str (v : value) : string :=
  match v with
  | PyStr s => s
  | _ => repr v
  end.

End Str.

End Py.

Import Py.

(** ** Regular expressions of the [re] module

    The patterns of the validators use character classes, concatenation,
    alternation, the quantifiers [*], [+], [?] and [{m,n}], and the
    anchors [^] and [$]; there are no groups referred back to and no
    look-around, so whether a match exists is decided by derivatives.
    The anchors are zero-width tests on the position: [^] holds at
    offset 0, and [$] holds at the end of the subject and also just
    before a line feed that is its last character. *)

Module Re.

Inductive regex : Type :=
| Fail
| Eps
| Class (p : ascii -> bool)
| Cat (r1 r2 : regex)
| Alt (r1 r2 : regex)
| Star (r : regex)
| Repeat (lo hi : nat) (r : regex)
| Bol
| Eol.

Definition Plus (r : regex) : regex := Cat r (Star r).
Definition Opt (r : regex) : regex := Alt r Eps.

(** [r{n,}] *)
Fixpoint AtLeast (n : nat) (r : regex) : regex :=
  match n with
  | O => Star r
  | S k => Cat r (AtLeast k r)
  end.

Definition Chr (c : ascii) : regex := Class (Ascii.eqb c).

Fixpoint Lit (s : string) : regex :=
  match s with
  | EmptyString => Eps
  | String c r => Cat (Chr c) (Lit r)
  end.

Fixpoint Seq (rs : list regex) : regex :=
  match rs with
  | [] => Eps
  | [r] => r
  | r :: rest => Cat r (Seq rest)
  end.

Fixpoint one_of (set : string) (c : ascii) : bool :=
  match set with
  | EmptyString => false
  | String d r => Ascii.eqb d c || one_of r c
  end.

(** [.] : any character but a line feed. *)
Definition Dot : regex := Class (fun c => negb (Ascii.eqb c nl)).

(** [$] at the position whose remaining subject is [rest]. *)
Definition at_eol (rest : string) : bool :=
  match rest with
  | EmptyString => true
  | String c EmptyString => Ascii.eqb c nl
  | _ => false
  end.

(** Does [r] match the empty string at a position?  [start] says that
    the position is offset 0, [rest] is the subject from there on. *)
Fixpoint nullable (start : bool) (rest : string) (r : regex) : bool :=
  match r with
  | Fail => false
  | Eps => true
  | Class _ => false
  | Cat r1 r2 => nullable start rest r1 && nullable start rest r2
  | Alt r1 r2 => nullable start rest r1 || nullable start rest r2
  | Star _ => true
  | Repeat lo _ r1 => (lo =? 0)%nat || nullable start rest r1
  | Bol => start
  | Eol => at_eol rest
  end.

Definition cat (r1 r2 : regex) : regex :=
  match r1 with
  | Fail => Fail
  | Eps => r2
  | _ => Cat r1 r2
  end.

Definition alt (r1 r2 : regex) : regex :=
  match r1, r2 with
  | Fail, _ => r2
  | _, Fail => r1
  | _, _ => Alt r1 r2
  end.

(** What is left of [r] once the character [c], found at a position
    described by [start] and [rest] (which begins with [c]), is read. *)
Fixpoint deriv (start : bool) (rest : string) (c : ascii) (r : regex)
    : regex :=
  match r with
  | Fail | Eps | Bol | Eol => Fail
  | Class p => if p c then Eps else Fail
  | Cat r1 r2 =>
      alt (cat (deriv start rest c r1) r2)
          (if nullable start rest r1 then deriv start rest c r2 else Fail)
  | Alt r1 r2 => alt (deriv start rest c r1) (deriv start rest c r2)
  | Star r1 => cat (deriv start rest c r1) (Star r1)
  | Repeat lo hi r1 =>
      match hi with
      | O => Fail
      | S hi' => cat (deriv start rest c r1) (Repeat (Nat.pred lo) hi' r1)
      end
  end.

(** Is there a match of [r] that begins at this position? *)
Fixpoint match_at (start : bool) (r : regex) (s : string) : bool :=
  nullable start s r
  || match s with
     | EmptyString => false
     | String c s' => match_at false (deriv start s c r) s'
     end.

(** [bool(re.match(r, s))] *)
Definition re_match (r : regex) (s : string) : bool := match_at true r s.

Fixpoint search_from (start : bool) (r : regex) (s : string) : bool :=
  match_at start r s
  || match s with
     | EmptyString => false
     | String _ s' => search_from false r s'
     end.

(** [bool(re.search(r, s))] *)
Definition re_search (r : regex) (s : string) : bool := search_from true r s.

(** *** What a pattern means

    [matches r s rest]: the pattern [r] matches exactly the characters [s]
    at a position where [rest] is what follows them in the subject.  The
    relation covers the patterns without [^]. *)

Inductive matches : regex -> string -> string -> Prop :=
| MEps rest : matches Eps EmptyString rest
| MClass p c rest : p c = true -> matches (Class p) (String c EmptyString) rest
| MCat r1 r2 s1 s2 rest :
    matches r1 s1 (s2 ++ rest) -> matches r2 s2 rest ->
    matches (Cat r1 r2) (s1 ++ s2) rest
| MAltL r1 r2 s rest : matches r1 s rest -> matches (Alt r1 r2) s rest
| MAltR r1 r2 s rest : matches r2 s rest -> matches (Alt r1 r2) s rest
| MStarNil r rest : matches (Star r) EmptyString rest
| MStarCons r s1 s2 rest :
    matches r s1 (s2 ++ rest) -> matches (Star r) s2 rest ->
    matches (Star r) (s1 ++ s2) rest
| MRepeatNil hi r rest : matches (Repeat 0 hi r) EmptyString rest
| MRepeatCons lo hi r s1 s2 rest :
    matches r s1 (s2 ++ rest) -> matches (Repeat (Nat.pred lo) hi r) s2 rest ->
    matches (Repeat lo (S hi) r) (s1 ++ s2) rest
| MEol rest : at_eol rest = true -> matches Eol EmptyString rest.

(** Patterns that match no empty string, whatever the position. *)
Fixpoint never_empty (r : regex) : bool :=
  match r with
  | Class _ => true
  | Cat r1 r2 => never_empty r1 || never_empty r2
  | Alt r1 r2 => never_empty r1 && never_empty r2
  | _ => false
  end.

(** The patterns the relation is meant for: no [^], and every [{m,n}]
    has [m <= n] and a body that consumes something. *)
Fixpoint well_formed (r : regex) : bool :=
  match r with
  | Bol => false
  | Cat r1 r2 | Alt r1 r2 => well_formed r1 && well_formed r2
  | Star r1 => well_formed r1
  | Repeat lo hi r1 => (lo <=? hi)%nat && well_formed r1 && never_empty r1
  | _ => true
  end.

End Re.

Import Re.

(** ** [filter_plugins/validation.py] *)

Module FilterModule.

Definition alnum : regex := Class is_alnum.
Definition alnum_hyphen : regex :=
  Class (fun c => is_alnum c || Ascii.eqb c "-").

(** [^[78]\.[0-9]$] *)
Definition php_version_pattern : regex :=
  Seq [Bol; Class (one_of "78"); Chr "."; Class is_digit; Eol].

Definition validate_php_version (version : value) : result bool :=
  match version with
  | PyStr s => Return (re_match php_version_pattern s)
  | _ => Return false
  end.

(** [^[a-zA-Z0-9_]+$] *)
Definition database_name_pattern : regex :=
  Seq [Bol; Plus (Class (fun c => is_alnum c || Ascii.eqb c "_")); Eol].

Definition validate_database_name (name : value) : result bool :=
  match name with
  | PyStr s =>
      if (String.length s =? 0)%nat then Return false
      else if (64 <? String.length s)%nat then Return false
      else Return (re_match database_name_pattern s)
  | _ => Return false
  end.

(** [[a-zA-Z0-9]([a-zA-Z0-9\-]{0,61}[a-zA-Z0-9])?] *)
Definition label : regex :=
  Cat alnum (Opt (Cat (Repeat 0 61 alnum_hyphen) alnum)).

(** [(label\.)*] *)
Definition dotted : regex := Star (Cat label (Chr ".")).

(** [^(label\.)*label$] *)
Definition domain_name_pattern : regex :=
  Seq [Bol; dotted; label; Eol].

Definition validate_domain_name (domain : value) : result bool :=
  match domain with
  | PyStr s =>
      if (String.length s =? 0)%nat then Return false
      else if (253 <? String.length s)%nat then Return false
      else Return (re_match domain_name_pattern s)
  | _ => Return false
  end.

Definition in_list (n : Z) (l : list Z) : bool := existsb (Z.eqb n) l.

Definition reserved_ports : list Z :=
  [22; 25; 53; 80; 110; 143; 443; 993; 995].

Definition conversion_error (e : exn) : bool :=
  match e with
  | ValueError | TypeError => true
  | _ => false
  end.

Definition validate_port (port : value) : result bool :=
  match int port with
  | Raise e => if conversion_error e then Return false else Raise e
  | Return port_int =>
      if (port_int <? 1) || (port_int >? 65535) then Return false
      else if in_list port_int reserved_ports
              && negb (in_list port_int [80; 443])
      then Return false
      else Return true
  end.

(** The four accepted shapes:
    [^https?://[^\s/$.?#].[^\s]*\.git$],
    [^git@[^\s/$.?#].[^\s]*:[^\s]*\.git$],
    [^https?://github\.com/[^/]+/[^/]+/?$] and
    [^https?://gitlab\.com/[^/]+/[^/]+/?$]. *)
Definition host_start : regex :=
  Class (fun c => negb (is_space c || one_of "/$.?#" c)).
Definition non_space : regex := Class (fun c => negb (is_space c)).
Definition non_slash : regex := Class (fun c => negb (Ascii.eqb c "/")).

Definition git_url_patterns : list regex :=
  [ Seq [Bol; Lit "http"; Opt (Chr "s"); Lit "://"; host_start; Dot;
         Star non_space; Lit ".git"; Eol];
    Seq [Bol; Lit "git@"; host_start; Dot; Star non_space; Chr ":";
         Star non_space; Lit ".git"; Eol];
    Seq [Bol; Lit "http"; Opt (Chr "s"); Lit "://github.com/";
         Plus non_slash; Chr "/"; Plus non_slash; Opt (Chr "/"); Eol];
    Seq [Bol; Lit "http"; Opt (Chr "s"); Lit "://gitlab.com/";
         Plus non_slash; Chr "/"; Plus non_slash; Opt (Chr "/"); Eol] ].

Definition validate_git_url (url : value) : result bool :=
  match url with
  | PyStr s =>
      if (String.length s =? 0)%nat then Return false
      else Return (existsb (fun pattern => re_match pattern s)
                     git_url_patterns)
  | _ => Return false
  end.

Definition validate_password_strength (password : value) : result bool :=
  match password with
  | PyStr s =>
      if (String.length s <? 8)%nat then Return false
      else if negb (re_search (Class is_upper) s) then Return false
      else if negb (re_search (Class is_lower) s) then Return false
      else if negb (re_search (Class is_digit) s) then Return false
      else Return true
  | _ => Return false
  end.

Definition dangerous_chars : list ascii :=
  ["`"; "$"; "|"; "&"; ";"; "("; ")"; "{"; "}"; "<"; ">"]%char.

(** [s.replace(c, '')] for a one-character [c]. *)
Fixpoint remove_char (c : ascii) (s : string) : string :=
  match s with
  | EmptyString => EmptyString
  | String d r => if Ascii.eqb d c then remove_char c r
                  else String d (remove_char c r)
  end.

Section Sanitize.

Variable float_repr : spec_float -> string.

Definition sanitize_input (input_str : value) : result string :=
  match input_str with
  | PyStr s =>
      let sanitized :=
        fold_left (fun sanitized char => remove_char char sanitized)
          dangerous_chars s in
      Return (strip sanitized)
  | _ => Return (str float_repr input_str)
  end.

End Sanitize.

(** [^[a-zA-Z0-9._%+-]+@[a-zA-Z0-9.-]+\.[a-zA-Z]{2,}$] *)
Definition email_pattern : regex :=
  Seq [Bol; Plus (Class (fun c => is_alnum c || one_of "._%+-" c));
       Chr "@"; Plus (Class (fun c => is_alnum c || one_of ".-" c));
       Chr "."; AtLeast 2 (Class (fun c => is_lower c || is_upper c)); Eol].

Definition validate_email (email : value) : result bool :=
  match email with
  | PyStr s => Return (re_match email_pattern s)
  | _ => Return false
  end.

(** The registry [filters()]: the seven predicates (the eighth entry,
    [sanitize_input], is not a predicate). *)
Definition validators : list (string * (value -> result bool)) :=
  [ ("validate_php_version", validate_php_version);
    ("validate_database_name", validate_database_name);
    ("validate_domain_name", validate_domain_name);
    ("validate_port", validate_port);
    ("validate_git_url", validate_git_url);
    ("validate_password_strength", validate_password_strength);
    ("validate_email", validate_email) ].

End FilterModule.

(** ** [scripts/generate_passwords.py] *)

Module GeneratePasswords.

(** *** The random source

    [secrets] reads the operating system's generator.  Here the draws are
    an explicit infinite supply that every call consumes from the front. *)

Definition source : Type := nat -> nat.

Definition gen (A : Type) : Type := source -> result (A * source).

Definition ret {A} (a : A) : gen A := fun t => Return (a, t).

Definition raise {A} (e : exn) : gen A := fun _ => Raise e.

Definition bind {A B} (g : gen A) (k : A -> gen B) : gen B :=
  fun t =>
    match g t with
    | Return (a, t') => k a t'
    | Raise e => Raise e
    end.

Definition lift {A} (r : result A) : gen A :=
  fun t =>
    match r with
    | Return a => Return (a, t)
    | Raise e => Raise e
    end.

Declare Scope gen_scope.
Delimit Scope gen_scope with gen.
Notation "x <- g ;; k" := (bind g (fun x => k))
  (at level 61, g at next level, right associativity) : gen_scope.
Local Open Scope gen_scope.

Definition advance (t : source) : source := fun i => t (S i).

Definition draw : gen nat := fun t => Return (t 0%nat, advance t).

(** A uniform integer below [n]. *)
Definition randbelow (n : nat) : gen nat :=
  r <- draw ;; ret (r mod n)%nat.

(** [for _ in range(n)]: [n] results of [g] in order. *)
Fixpoint times {A} (n : nat) (g : gen A) : gen (list A) :=
  match n with
  | O => ret []
  | S k => a <- g ;; rest <- times k g ;; ret (a :: rest)
  end.

(** [secrets.choice(seq)] *)
Definition choice (seq : string) : gen ascii :=
  match seq with
  | EmptyString => raise IndexError
  | _ =>
      i <- randbelow (String.length seq) ;;
      match String.get i seq with
      | Some c => ret c
      | None => raise IndexError
      end
  end.

(** [secrets.token_bytes(nbytes)] *)
Definition token_bytes (nbytes : Z) : gen (list nat) :=
  times (Z.to_nat nbytes) (r <- draw ;; ret (r mod 256)%nat).

Definition b64_alphabet : string :=
  "ABCDEFGHIJKLMNOPQRSTUVWXYZabcdefghijklmnopqrstuvwxyz0123456789-_".

Definition b64_char (n : nat) : ascii :=
  match String.get n b64_alphabet with
  | Some c => c
  | None => "="%char
  end.

(** [base64.urlsafe_b64encode]: three bytes give four characters, and a
    last group of one or two bytes is padded with [=]. *)
Fixpoint urlsafe_b64encode (bs : list nat) : string :=
  match bs with
  | [] => EmptyString
  | [a] =>
      String (b64_char (a / 4))
        (String (b64_char (a mod 4 * 16)) "==")
  | [a; b] =>
      String (b64_char (a / 4))
        (String (b64_char (a mod 4 * 16 + b / 16))
           (String (b64_char (b mod 16 * 4)) "="))
  | a :: b :: c :: rest =>
      String (b64_char (a / 4))
        (String (b64_char (a mod 4 * 16 + b / 16))
           (String (b64_char (b mod 16 * 4 + c / 64))
              (String (b64_char (c mod 64)) (urlsafe_b64encode rest))))
  end%nat.

(** [s.rstrip(c)] for a one-character [c]. *)
Fixpoint rstrip_char (c : ascii) (s : string) : string :=
  match s with
  | EmptyString => EmptyString
  | String d r =>
      match rstrip_char c r with
      | EmptyString => if Ascii.eqb d c then EmptyString else str1 d
      | r' => String d r'
      end
  end.

(** [secrets.token_urlsafe(nbytes)] *)
Definition token_urlsafe (nbytes : Z) : gen string :=
  tok <- token_bytes nbytes ;;
  ret (rstrip_char "=" (urlsafe_b64encode tok)).

Definition ascii_lowercase : string := "abcdefghijklmnopqrstuvwxyz".
Definition ascii_uppercase : string := "ABCDEFGHIJKLMNOPQRSTUVWXYZ".
Definition ascii_letters : string := ascii_lowercase ++ ascii_uppercase.
Definition digits : string := "0123456789".

(** [v == s] for a string literal [s]. *)
Definition eq_str (v : value) (s : string) : bool :=
  match v with
  | PyStr x => String.eqb x s
  | _ => false
  end.

Definition characters_for (complexity : value) : string :=
  if eq_str complexity "high" then ascii_letters ++ digits ++ "!@#$%^&*"
  else if eq_str complexity "medium" then ascii_letters ++ digits
  else ascii_letters ++ digits.

Definition generate_password (length : Z) (complexity : value)
    : gen string :=
  let characters := characters_for complexity in
  cs <- times (Z.to_nat length) (choice characters) ;;
  ret (string_of_list_ascii cs).

Definition generate_salt : gen string := token_urlsafe 32.

(** [crypt.mksalt(crypt.METHOD_SHA512)]: the method's prefix and sixteen
    characters of the salt alphabet. *)
Definition saltchars : string := ascii_letters ++ digits ++ "./".

Definition mksalt_sha512 : gen string :=
  cs <- times 16 (choice saltchars) ;;
  ret ("$6$" ++ string_of_list_ascii cs).

(** *** The [passwords] dictionary: keys in insertion order. *)

Definition dict : Type := list (string * string).

Fixpoint setitem (d : dict) (k v : string) : dict :=
  match d with
  | [] => [(k, v)]
  | (k', v') :: rest =>
      if String.eqb k' k then (k', v) :: rest
      else (k', v') :: setitem rest k v
  end.

Fixpoint getitem (d : dict) (k : string) : result string :=
  match d with
  | [] => Raise KeyError
  | (k', v') :: rest => if String.eqb k' k then Return v' else getitem rest k
  end.

Definition quoted (s : string) : string := String dquote (s ++ str1 dquote).

Definition unlines (ls : list string) : string :=
  String.concat EmptyString (map (fun l => l ++ str1 nl) ls).

Record bundle : Type := {
  passwords : dict;
  adminer_hash : string;
  vault_content : string
}.

(** [s.lower()] on the code points 0..255: the letters A to Z and the
    accented capitals (not the multiplication sign) move up by 32. *)
Definition lower_char (c : ascii) : ascii :=
  let n := code c in
  if ((65 <=? n) && (n <=? 90)
      || (192 <=? n) && (n <=? 222) && negb (n =? 215))%nat
  then ascii_of_nat (n + 32)
  else c.

Fixpoint lower (s : string) : string :=
  match s with
  | EmptyString => EmptyString
  | String c r => String (lower_char c) (lower r)
  end.

(** The end of [main]: [answer] is what [input] returns to the question
    whether to save; the result lists the files written, each with its
    content.  What is printed is left out. *)
Definition save_template (answer vault_content : string)
    : list (string * string) :=
  let save := lower answer in
  if String.eqb save "y" then [("vault_template.yml", vault_content)]
  else [].

Section Main.

(** [crypt.crypt(word, salt)], the C library's routine. *)
Variable crypt : string -> string -> string.

Definition hash_password (password : string) : gen string :=
  salt <- mksalt_sha512 ;;
  ret (crypt password salt).

(** The part of [main] that builds the secrets and the vault template;
    what it prints and the closing question whether to save the template
    are left out. *)
Definition main : gen bundle :=
  let passwords : dict := [] in
  p <- generate_password 20 (PyStr "high") ;;
  let passwords := setitem passwords "mysql_root" p in
  p <- generate_password 20 (PyStr "high") ;;
  let passwords := setitem passwords "postgres" p in
  p <- generate_password 16 (PyStr "medium") ;;
  let passwords := setitem passwords "adminer" p in
  p <- generate_password 16 (PyStr "medium") ;;
  let passwords := setitem passwords "laravel_db" p in
  p <- token_urlsafe 32 ;;
  let passwords := setitem passwords "app_key" ("base64:" ++ p) in
  p <- token_urlsafe 64 ;;
  let passwords := setitem passwords "jwt_secret" p in
  p <- token_urlsafe 32 ;;
  let passwords := setitem passwords "backup_key" p in
  adminer <- lift (getitem passwords "adminer") ;;
  adminer_hash <- hash_password adminer ;;
  mysql_root <- lift (getitem passwords "mysql_root") ;;
  postgres <- lift (getitem passwords "postgres") ;;
  adminer <- lift (getitem passwords "adminer") ;;
  laravel_db <- lift (getitem passwords "laravel_db") ;;
  app_key <- lift (getitem passwords "app_key") ;;
  jwt_secret <- lift (getitem passwords "jwt_secret") ;;
  backup_key <- lift (getitem passwords "backup_key") ;;
  laravel_db' <- lift (getitem passwords "laravel_db") ;;
  let vault_content :=
    unlines
      [ "---";
        "# Encrypted vault file - create with: ansible-vault create group_vars/vault.yml";
        EmptyString;
        "vault_mysql_root_password: " ++ quoted mysql_root;
        "vault_postgres_password: " ++ quoted postgres;
        "vault_adminer_password: " ++ quoted adminer;
        "vault_adminer_password_hash: " ++ quoted adminer_hash;
        "vault_laravel_db_password: " ++ quoted laravel_db;
        "vault_app_key: " ++ quoted app_key;
        "vault_jwt_secret: " ++ quoted jwt_secret;
        "vault_backup_encryption_key: " ++ quoted backup_key;
        EmptyString;
        "vault_adminer_user: " ++ quoted "dbadmin";
        EmptyString;
        "vault_db_users:";
        "  - name: " ++ quoted "laravel_user";
        "    password: " ++ quoted laravel_db';
        "    privileges: "
          ++ quoted "SELECT,INSERT,UPDATE,DELETE,CREATE,ALTER,INDEX,DROP" ] in
  ret {| passwords := passwords;
         adminer_hash := adminer_hash;
         vault_content := vault_content |}.

(** [main] with its end: the bundle and the files written. *)
Definition main_and_save (answer : string)
    : gen (bundle * list (string * string)) :=
  b <- main ;;
  ret (b, save_template answer (vault_content b)).

End Main.

End GeneratePasswords.

(** ** Reading the vault template back

    The template is a YAML document whose scalar entries all have the form
    [key: "value"], one to a line, possibly indented and possibly behind
    the [- ] of a sequence item.  [fields key doc] lists, in order, the
    values of the entries of [doc] with that key. *)

Module Vault.

Fixpoint split_lines (s : string) : list string :=
  match s with
  | EmptyString => [EmptyString]
  | String c r =>
      if Ascii.eqb c nl then EmptyString :: split_lines r
      else match split_lines r with
           | l :: ls => String c l :: ls
           | [] => [str1 c]
           end
  end.

Fixpoint strip_indent (s : string) : string :=
  match s with
  | String " " r => strip_indent r
  | _ => s
  end.

Definition strip_item (s : string) : string :=
  match s with
  | String "-" (String " " r) => r
  | _ => s
  end.

Fixpoint strip_prefix (p s : string) : option string :=
  match p, s with
  | EmptyString, _ => Some s
  | String a p', String b s' =>
      if Ascii.eqb a b then strip_prefix p' s' else None
  | String _ _, EmptyString => None
  end.

(** [s] without its last character, which has to be a double quote. *)
Fixpoint unquote_tail (s : string) : option string :=
  match s with
  | EmptyString => None
  | String c EmptyString =>
      if Ascii.eqb c dquote then Some EmptyString else None
  | String c r => option_map (String c) (unquote_tail r)
  end.

Definition field (key line : string) : option string :=
  match strip_prefix (key ++ ": " ++ str1 dquote)
          (strip_item (strip_indent line)) with
  | Some rest => unquote_tail rest
  | None => None
  end.

Definition fields (key doc : string) : list string :=
  flat_map (fun line => match field key line with
                        | Some v => [v]
                        | None => []
                        end)
    (split_lines doc).

End Vault.

Import FilterModule GeneratePasswords Vault.

(** ** The rules as the specification words them *)

Module Spec.

(** The sanitizer: every dangerous character removed, then the white space
    at both ends trimmed. *)
Fixpoint without_dangerous (s : string) : string :=
  match s with
  | EmptyString => EmptyString
  | String c r =>
      if one_of "`$|&;(){}<>" c then without_dangerous r
      else String c (without_dangerous r)
  end.

Definition sanitized (s : string) : string := strip (without_dangerous s).

(** The version rule: one of the digits 7 and 8, a dot, one digit. *)
Definition php_version_ok (s : string) : bool :=
  match s with
  | String major (String dot (String minor EmptyString)) =>
      one_of "78" major && Ascii.eqb "." dot && is_digit minor
  | _ => false
  end.

(** The domain rule: labels separated by dots; a label has 1 to 63
    characters, starts and ends with an alphanumeric and holds only
    alphanumerics and hyphens. *)
Definition label_char (c : ascii) : bool := is_alnum c || Ascii.eqb c "-".

Definition starts_alnum (l : string) : bool :=
  match l with
  | String c _ => is_alnum c
  | EmptyString => false
  end.

Fixpoint ends_alnum (l : string) : bool :=
  match l with
  | EmptyString => false
  | String c EmptyString => is_alnum c
  | String _ r => ends_alnum r
  end.

Fixpoint all_chars (p : ascii -> bool) (s : string) : bool :=
  match s with
  | EmptyString => true
  | String c r => p c && all_chars p r
  end.

Definition label_ok (l : string) : bool :=
  (1 <=? String.length l)%nat && (String.length l <=? 63)%nat
  && starts_alnum l && ends_alnum l && all_chars label_char l.

Fixpoint split_dots (s : string) : list string :=
  match s with
  | EmptyString => [EmptyString]
  | String c r =>
      if Ascii.eqb c "." then EmptyString :: split_dots r
      else match split_dots r with
           | l :: ls => String c l :: ls
           | [] => [String c EmptyString]
           end
  end.

Definition labels_ok (s : string) : bool := forallb label_ok (split_dots s).

Definition domain_name_ok (s : string) : bool :=
  (1 <=? String.length s)%nat && (String.length s <=? 253)%nat
  && labels_ok s.

Definition no_dot (s : string) : bool :=
  all_chars (fun c => negb (Ascii.eqb c ".")) s.


(** The database name rule: at least one character, letters, digits and
    underscores only. *)
Definition word_char (c : ascii) : bool := is_alnum c || Ascii.eqb c "_".

Definition database_name_ok (s : string) : bool :=
  (1 <=? String.length s)%nat && all_chars word_char s.

(** The email rule: a local part, [@], a domain, a dot and a top-level
    domain of two letters or more. *)
Definition local_char (c : ascii) : bool := is_alnum c || one_of "._%+-" c.
Definition domain_char (c : ascii) : bool := is_alnum c || one_of ".-" c.
Definition letter (c : ascii) : bool := is_lower c || is_upper c.

Definition email_ok (s : string) : Prop :=
  exists local domain tld,
    s = local ++ "@" ++ domain ++ "." ++ tld
    /\ local <> EmptyString /\ all_chars local_char local = true
    /\ domain <> EmptyString /\ all_chars domain_char domain = true
    /\ (2 <= String.length tld)%nat /\ all_chars letter tld = true.

(** The repository URL rule: one of four shapes. *)
Definition scheme (s : string) : Prop := s = "http" \/ s = "https".
Definition host_char (c : ascii) : bool :=
  negb (is_space c || one_of "/$.?#" c).
Definition not_nl (c : ascii) : bool := negb (Ascii.eqb c nl).
Definition not_space (c : ascii) : bool := negb (is_space c).
Definition not_slash (c : ascii) : bool := negb (Ascii.eqb c "/").

Definition git_over_http (u : string) : Prop :=
  exists sch h d w,
    u = sch ++ "://" ++ String h (String d (w ++ ".git"))
    /\ scheme sch /\ host_char h = true /\ not_nl d = true
    /\ all_chars not_space w = true.

Definition git_over_ssh (u : string) : Prop :=
  exists h d w path,
    u = "git@" ++ String h (String d (w ++ ":" ++ path ++ ".git"))
    /\ host_char h = true /\ not_nl d = true
    /\ all_chars not_space w = true /\ all_chars not_space path = true.

Definition hosted (host u : string) : Prop :=
  exists sch owner repo slash,
    u = sch ++ "://" ++ host ++ "/" ++ owner ++ "/" ++ repo ++ slash
    /\ scheme sch
    /\ owner <> EmptyString /\ all_chars not_slash owner = true
    /\ repo <> EmptyString /\ all_chars not_slash repo = true
    /\ (slash = EmptyString \/ slash = "/").

Definition git_url_ok (u : string) : Prop :=
  git_over_http u \/ git_over_ssh u
  \/ hosted "github.com" u \/ hosted "gitlab.com" u.

(** What the sanitizer leaves: no dangerous character, no white space at
    either end. *)
Definition safe_char (c : ascii) : bool := negb (one_of "`$|&;(){}<>" c).

Definition starts_with_space (s : string) : bool :=
  match s with
  | String c _ => is_space c
  | EmptyString => false
  end.

Fixpoint ends_with_space (s : string) : bool :=
  match s with
  | EmptyString => false
  | String c EmptyString => is_space c
  | String _ r => ends_with_space r
  end.

Definition trimmed (s : string) : bool :=
  negb (starts_with_space s) && negb (ends_with_space s).

Definition plain_alphabet : string :=
  "abcdefghijklmnopqrstuvwxyzABCDEFGHIJKLMNOPQRSTUVWXYZ0123456789".

Definition high_alphabet : string :=
  "abcdefghijklmnopqrstuvwxyzABCDEFGHIJKLMNOPQRSTUVWXYZ0123456789!@#$%^&*".

(** Upper and lower case letters, digits and the eight symbols for
    ['high']; letters and digits for anything else. *)
Definition alphabet (complexity : value) : string :=
  match complexity with
  | PyStr s => if String.eqb s "high" then high_alphabet else plain_alphabet
  | _ => plain_alphabet
  end.

(** The characters of a URL-safe token and of a salt. *)
Definition url_safe (c : ascii) : bool :=
  is_alnum c || Ascii.eqb c "-" || Ascii.eqb c "_".

Definition salt_char (c : ascii) : bool :=
  is_alnum c || Ascii.eqb c "." || Ascii.eqb c "/".

(** [s] has [n] characters, all of them from [alphabet]. *)
Definition drawn_from (alphabet : string) (n : nat) (s : string) : Prop :=
  String.length s = n /\ all_chars (contains alphabet) s = true.

Definition url_safe_token (n : nat) (s : string) : Prop :=
  String.length s = n /\ all_chars url_safe s = true.

(** The key of the template under which each secret of the dictionary is
    written. *)
Definition vault_keys : list (string * string) :=
  [ ("mysql_root", "vault_mysql_root_password");
    ("postgres", "vault_postgres_password");
    ("adminer", "vault_adminer_password");
    ("laravel_db", "vault_laravel_db_password");
    ("app_key", "vault_app_key");
    ("jwt_secret", "vault_jwt_secret");
    ("backup_key", "vault_backup_encryption_key") ].



(** Every character of [s] is one of [set]. *)
Definition within (set s : string) : Prop :=
  forall c, contains s c = true -> contains set c = true.

(** Some supply of draws and some stand-in for the C library's [crypt],
    to run the generator on. *)
Definition sample_source : source := fun i => (i * 37 + 11)%nat.

Definition sample_crypt (word salt : string) : string :=
  "$6$"
  ++ urlsafe_b64encode (map code (list_ascii_of_string (salt ++ word))).

(** The double nearest to 8.9, [0x1.1cccccccccccdp+3]. *)
Definition float_8_9 : spec_float :=
  S754_finite false 5010254585449677 (-49).


End Spec.


(** * Properties *)

Import Spec.

(** ** The port rule *)

Section Port.

Lemma in_list_In (n : Z) (l : list Z) : in_list n l = true <-> In n l.
Proof.
  unfold in_list. rewrite existsb_exists. split.
  - intros (x & Hx & E). apply Z.eqb_eq in E. now subst.
  - intros H. exists n. split; [exact H | apply Z.eqb_refl].
Qed.

(** The decision once the conversion has given [n]. *)
Lemma validate_port_int (n : Z) :
  validate_port (PyInt n)
  = Return ((1 <=? n) && (n <=? 65535)
            && (negb (in_list n [22; 25; 53; 110; 143; 993; 995]))).
Proof.
  unfold validate_port; cbn [int].
  destruct (n <? 1) eqn:Hlo; [ | destruct (n >? 65535) eqn:Hhi ]; cbn [orb].
  - replace (1 <=? n) with false by lia. reflexivity.
  - replace (n <=? 65535) with false by lia.
    now rewrite andb_false_r.
  - replace (1 <=? n) with true by lia.
    replace (n <=? 65535) with true by lia.
    unfold in_list, reserved_ports; cbn [existsb andb].
    destruct (n =? 22) eqn:E22, (n =? 25) eqn:E25, (n =? 53) eqn:E53,
      (n =? 80) eqn:E80, (n =? 110) eqn:E110, (n =? 143) eqn:E143,
      (n =? 443) eqn:E443, (n =? 993) eqn:E993, (n =? 995) eqn:E995;
      try reflexivity; lia.
Qed.

(** Whatever [int] turns the value into is what gets validated. *)
Lemma validate_port_via_int (v : value) (n : Z) :
  int v = Return n -> validate_port v = validate_port (PyInt n).
Proof.
  intros H. unfold validate_port. rewrite H. reflexivity.
Qed.

(** X1. Acceptance, for every value: the conversion succeeds, the number is in
    range and it is none of the reserved ports other than 80 and 443. *)
Lemma validate_port_accepts (v : value) :
  validate_port v = Return true <->
  exists n, int v = Return n /\ 1 <= n <= 65535 /\
            (In n [22; 25; 53; 80; 110; 143; 443; 993; 995] ->
             n = 80 \/ n = 443).
Proof.
  split.
  - intros H. destruct (int v) as [n | e] eqn:Hint.
    + rewrite (validate_port_via_int _ _ Hint), validate_port_int in H.
      injection H as H.
      apply andb_true_iff in H as [H Hres].
      apply andb_true_iff in H as [Hlo Hhi].
      exists n. split; [reflexivity | split; [lia | ] ].
      intros Hin. apply negb_true_iff in Hres.
      destruct (Z.eq_dec n 80) as [-> | N80]; [now left | ].
      destruct (Z.eq_dec n 443) as [-> | N443]; [now right | ].
      exfalso.
      assert (In n [22; 25; 53; 110; 143; 993; 995]) as Hin'
        by (cbn in Hin |- *; intuition lia).
      apply <- in_list_In in Hin'. unfold in_list in Hin'; cbn in Hin'.
      congruence.
    + unfold validate_port in H. rewrite Hint in H.
      destruct (conversion_error e); discriminate.
  - intros (n & Hint & Hrange & Hres).
    rewrite (validate_port_via_int _ _ Hint), validate_port_int.
    f_equal.
    replace (1 <=? n) with true by lia.
    replace (n <=? 65535) with true by lia.
    cbn [andb]. apply negb_true_iff.
    destruct (in_list n [22; 25; 53; 110; 143; 993; 995]) eqn:E;
      [ | reflexivity ].
    apply -> in_list_In in E.
    assert (In n [22; 25; 53; 80; 110; 143; 443; 993; 995]) as Hin
      by (cbn in E |- *; intuition lia).
    specialize (Hres Hin). cbn in E. lia.
Qed.

(** A conversion that fails with [ValueError] or [TypeError] is a
    rejection. *)
Lemma validate_port_conversion_failure (v : value) :
  int v = Raise ValueError \/ int v = Raise TypeError ->
  validate_port v = Return false.
Proof.
  unfold validate_port. intros [-> | ->]; reflexivity.
Qed.

(** The conversion fails in no other way but on an infinity. *)
Lemma int_outcomes (v : value) :
  (exists n, int v = Return n)
  \/ int v = Raise ValueError
  \/ int v = Raise TypeError
  \/ (exists s, v = PyFloat (S754_infinity s)
                /\ int v = Raise OverflowError).
Proof.
  destruct v as [ | b | n | f | s | l | d]; cbn [int]; eauto.
  - destruct f as [sg | sg | | sg m e]; cbn [int_of_float]; eauto 6.
  - unfold int_of_str.
    destruct (match strip s with
              | String "-" r => (true, r)
              | String "+" r => (false, r)
              | _ => (false, strip s)
              end) as [negative body].
    destruct (digits_value 0 false body); eauto.
Qed.

(** X2. The port rule answers with a boolean on every value but an
    infinite float, on which it raises [OverflowError]. *)
Lemma validate_port_outcomes (v : value) :
  (exists b, validate_port v = Return b)
  \/ (exists s, v = PyFloat (S754_infinity s)
                /\ validate_port v = Raise OverflowError).
Proof.
  destruct (int_outcomes v) as [(n & H) | [H | [H | (s & -> & H)] ] ].
  - left. rewrite (validate_port_via_int _ _ H), validate_port_int. eauto.
  - left. exists false. apply validate_port_conversion_failure. now left.
  - left. exists false. apply validate_port_conversion_failure. now right.
  - right. exists s. split; reflexivity.
Qed.

End Port.

(** C4, as stated, fails: 79 is no reserved port, so it is accepted. *)
Lemma validate_port_79_accepted :
  ~ (validate_port (PyInt 79) = Return false
     /\ validate_port (PyInt 80) = Return true
     /\ validate_port (PyInt 81) = Return false
     /\ validate_port (PyInt 443) = Return true
     /\ validate_port (PyInt 444) = Return false).
Proof.
  intros (H79 & _). discriminate H79.
Qed.

(** C4, amended. The port rule is not monotone along the integers (21 is
    accepted, 22 rejected, 23 accepted), and 79, 80, 81, 443 and 444 are
    all accepted. *)
Theorem validate_port_not_monotone :
  validate_port (PyInt 79) = Return true
  /\ validate_port (PyInt 80) = Return true
  /\ validate_port (PyInt 81) = Return true
  /\ validate_port (PyInt 443) = Return true
  /\ validate_port (PyInt 444) = Return true
  /\ validate_port (PyInt 21) = Return true
  /\ validate_port (PyInt 22) = Return false
  /\ validate_port (PyInt 23) = Return true
  /\ ~ (forall m n, m <= n -> validate_port (PyInt m) = Return true ->
                    validate_port (PyInt n) = Return true)
  /\ ~ (forall m n, m <= n -> validate_port (PyInt n) = Return true ->
                    validate_port (PyInt m) = Return true).
Proof.
  do 8 (split; [reflexivity | ]). split.
  - intros H. specialize (H 21 22 ltac:(lia) eq_refl). discriminate H.
  - intros H. specialize (H 22 23 ltac:(lia) eq_refl). discriminate H.
Qed.

(** C2 fails on the code: the conversion of an infinite float raises
    [OverflowError], which the port rule does not catch, so the rule is
    not total. *)
Theorem validate_port_raises_on_infinity :
  In ("validate_port", validate_port) validators
  /\ validate_port (PyFloat (S754_infinity false)) = Raise OverflowError
  /\ ~ (forall name rule v,
          In (name, rule) validators -> exists b : bool, rule v = Return b).
Proof.
  split; [cbn; tauto | ].
  split; [reflexivity | ].
  intros H.
  destruct (H "validate_port" validate_port (PyFloat (S754_infinity false))
              ltac:(cbn; tauto))
    as [b Hb].
  discriminate Hb.
Qed.

(** C3 fails on the code at the same place: minus infinity cannot be
    converted to an integer, yet the rule does not answer [False]. *)
Theorem validate_port_infinity_not_rejected :
  (forall n, int (PyFloat (S754_infinity true)) <> Return n)
  /\ validate_port (PyFloat (S754_infinity true)) <> Return false
  /\ validate_port (PyFloat (S754_infinity true)) = Raise OverflowError.
Proof.
  repeat split; intros; discriminate.
Qed.

Section Coercion.

Lemma int_of_float_truncates (s : bool) (m : positive) (e : Z) :
  int_of_float (S754_finite s m e)
  = Return (Z.quot (if s then - (Z.pos m * 2 ^ Z.max e 0)
                    else Z.pos m * 2 ^ Z.max e 0)
              (2 ^ Z.max (- e) 0)).
Proof.
  cbn [int_of_float]. f_equal.
  assert (Z.shiftl (Z.pos m) e
          = Z.quot (Z.pos m * 2 ^ Z.max e 0) (2 ^ Z.max (- e) 0)) as ->.
  { destruct (Z.le_gt_cases 0 e) as [He | He].
    - rewrite Z.shiftl_mul_pow2 by exact He.
      rewrite (Z.max_l e 0) by lia. rewrite (Z.max_r (- e) 0) by lia.
      rewrite Z.pow_0_r, Z.quot_1_r. reflexivity.
    - rewrite Z.shiftl_div_pow2 by lia.
      rewrite (Z.max_r e 0) by lia. rewrite (Z.max_l (- e) 0) by lia.
      rewrite Z.pow_0_r, Z.mul_1_r.
      symmetry. apply Z.quot_div_nonneg; [lia | ].
      apply Z.pow_pos_nonneg; lia. }
  destruct s; [ | reflexivity ].
  rewrite Z.quot_opp_l; [reflexivity | ].
  apply Z.pow_nonzero; lia.
Qed.

End Coercion.

(** C10. Booleans and floats pass the conversion too: a boolean is
    validated as 0 or 1, so [True] is accepted as port 1; a finite float is
    cut off towards zero and the integer part is validated, so 8.9 is
    accepted as port 8. *)
Theorem validate_port_coerces_bool_and_float :
  (forall b : bool,
     validate_port (PyBool b) = validate_port (PyInt (if b then 1 else 0)))
  /\ validate_port (PyBool true) = Return true
  /\ (forall (s : bool) (m : positive) (e : Z),
        let magnitude := Z.pos m * 2 ^ Z.max e 0 in
        let n := Z.quot (if s then - magnitude else magnitude)
                   (2 ^ Z.max (- e) 0) in
        int (PyFloat (S754_finite s m e)) = Return n
        /\ validate_port (PyFloat (S754_finite s m e))
           = validate_port (PyInt n))
  /\ (forall s : bool,
        validate_port (PyFloat (S754_zero s)) = validate_port (PyInt 0))
  /\ int (PyFloat Spec.float_8_9) = Return 8
  /\ validate_port (PyFloat Spec.float_8_9) = Return true.
Proof.
  split; [intros b; reflexivity | ].
  split; [reflexivity | ].
  split.
  - intros s m e magnitude n.
    assert (int (PyFloat (S754_finite s m e)) = Return n) as H
      by apply int_of_float_truncates.
    split; [exact H | exact (validate_port_via_int _ _ H)].
  - split; [intros s; reflexivity | ].
    split; reflexivity.
Qed.

(** ** Patterns: the derivative matcher finds exactly the matches *)

Section Patterns.

Implicit Types (r : regex) (s rest : string) (c : ascii).

Lemma never_empty_sound r s rest :
  never_empty r = true -> matches r s rest -> s <> EmptyString.
Proof.
  intros Hn Hm. induction Hm; cbn in Hn; try discriminate.
  - apply orb_true_iff in Hn as [Hn | Hn].
    + specialize (IHHm1 Hn). destruct s1; [congruence | discriminate].
    + specialize (IHHm2 Hn). destruct s1; [cbn; assumption | discriminate].
  - apply andb_true_iff in Hn as [Hn _]. auto.
  - apply andb_true_iff in Hn as [_ Hn]. auto.
Qed.

Lemma matches_Eps s rest : matches Eps s rest <-> s = EmptyString.
Proof.
  split; [now inversion 1 | intros ->; constructor].
Qed.

Lemma matches_Cat r1 r2 s rest :
  matches (Cat r1 r2) s rest <->
  exists s1 s2,
    s = s1 ++ s2 /\ matches r1 s1 (s2 ++ rest) /\ matches r2 s2 rest.
Proof.
  split.
  - inversion 1; subst. eauto.
  - intros (s1 & s2 & -> & H1 & H2). now constructor.
Qed.

Lemma matches_Alt r1 r2 s rest :
  matches (Alt r1 r2) s rest <-> matches r1 s rest \/ matches r2 s rest.
Proof.
  split.
  - inversion 1; subst; auto.
  - intros [H | H]; [now apply MAltL | now apply MAltR].
Qed.

Lemma append_nil_r s : s ++ EmptyString = s.
Proof.
  induction s; cbn; congruence.
Qed.

Lemma append_assoc (a b d : string) : (a ++ b) ++ d = a ++ (b ++ d).
Proof.
  induction a as [ | x a IH]; cbn; [reflexivity | now rewrite IH].
Qed.

(** [nullable] is the test for a match of the empty string. *)
Lemma nullable_correct start rest r :
  well_formed r = true ->
  (nullable start rest r = true <-> matches r EmptyString rest).
Proof.
  induction r as [ | | p | r1 IH1 r2 IH2 | r1 IH1 r2 IH2 | r IH
                 | lo hi r IH | | ];
    cbn [well_formed nullable]; intros Hwf.
  - split; [discriminate | inversion 1].
  - split; [constructor | reflexivity].
  - split; [discriminate | inversion 1].
  - apply andb_true_iff in Hwf as [W1 W2].
    rewrite andb_true_iff, (IH1 W1), (IH2 W2), matches_Cat. split.
    + intros [H1 H2]. exists EmptyString, EmptyString. auto.
    + intros (s1 & s2 & E & H1 & H2).
      destruct s1; [ | discriminate]. cbn in E. subst s2. auto.
  - apply andb_true_iff in Hwf as [W1 W2].
    now rewrite orb_true_iff, (IH1 W1), (IH2 W2), matches_Alt.
  - split; [constructor | reflexivity].
  - apply andb_true_iff in Hwf as [Hwf Hne].
    apply andb_true_iff in Hwf as [Hle W]. split.
    + intros H. apply orb_true_iff in H as [H | H].
      * apply Nat.eqb_eq in H. subst. constructor.
      * apply (IH W), (never_empty_sound _ _ _ Hne) in H. congruence.
    + inversion 1 as [ | | | | | | | | ? ? ? s1 s2 ? H1 H2 | ]; subst;
        [reflexivity | ].
      destruct s1; [ | discriminate].
      apply (never_empty_sound _ _ _ Hne) in H1. congruence.
  - discriminate.
  - split; [now constructor | now inversion 1].
Qed.

(** The two simplifying constructors change nothing. *)
Lemma matches_cat r1 r2 s rest :
  matches (cat r1 r2) s rest <-> matches (Cat r1 r2) s rest.
Proof.
  destruct r1; cbn [cat]; try reflexivity; rewrite matches_Cat.
  - split; [inversion 1 | ].
    intros (s1 & s2 & _ & H & _). inversion H.
  - split.
    + intros H. exists EmptyString, s. repeat split; [constructor | exact H].
    + intros (s1 & s2 & -> & H1 & H2).
      apply matches_Eps in H1. now subst s1.
Qed.

Lemma matches_alt r1 r2 s rest :
  matches (alt r1 r2) s rest <-> matches (Alt r1 r2) s rest.
Proof.
  assert (forall x, matches (Alt Fail x) s rest <-> matches x s rest) as HL.
  { intros x. rewrite matches_Alt. split; [ | now right].
    intros [H | H]; [inversion H | exact H]. }
  assert (forall x, matches (Alt x Fail) s rest <-> matches x s rest) as HR.
  { intros x. rewrite matches_Alt. split; [ | now left].
    intros [H | H]; [exact H | inversion H]. }
  destruct r1; cbn [alt]; rewrite ?HL; try reflexivity;
    destruct r2; rewrite ?HR; reflexivity.
Qed.

Lemma well_formed_cat r1 r2 :
  well_formed r1 = true -> well_formed r2 = true ->
  well_formed (cat r1 r2) = true.
Proof.
  intros H1 H2. destruct r1; cbn [cat]; auto;
    cbn [well_formed] in *; now rewrite H1, H2.
Qed.

Lemma well_formed_alt r1 r2 :
  well_formed r1 = true -> well_formed r2 = true ->
  well_formed (alt r1 r2) = true.
Proof.
  intros H1 H2. destruct r1; cbn [alt]; auto; destruct r2; auto;
    cbn [well_formed] in *; rewrite ?H1, ?H2; auto.
Qed.

Lemma well_formed_deriv start rest c r :
  well_formed r = true -> well_formed (deriv start rest c r) = true.
Proof.
  induction r as [ | | p | r1 IH1 r2 IH2 | r1 IH1 r2 IH2 | r IH
                 | lo hi r IH | | ];
    cbn [well_formed deriv]; intros Hwf; auto.
  - destruct (p c); reflexivity.
  - apply andb_true_iff in Hwf as [W1 W2].
    apply well_formed_alt; [apply well_formed_cat; auto | ].
    destruct (nullable start rest r1); auto.
  - apply andb_true_iff in Hwf as [W1 W2]. apply well_formed_alt; auto.
  - apply well_formed_cat; auto.
  - apply andb_true_iff in Hwf as [Hwf Hne].
    apply andb_true_iff in Hwf as [Hle W].
    destruct hi as [ | hi]; [reflexivity | ].
    apply well_formed_cat; [auto | ]. cbn [well_formed]. rewrite W, Hne.
    apply Nat.leb_le in Hle.
    replace (Nat.pred lo <=? hi)%nat with true; [reflexivity | ].
    symmetry. apply Nat.leb_le. lia.
Qed.

(** A non-empty match of [r*] begins with a non-empty match of [r]. *)
Lemma matches_Star_cons r c s rest :
  matches (Star r) (String c s) rest ->
  exists s1 s2,
    s = s1 ++ s2 /\ matches r (String c s1) (s2 ++ rest)
    /\ matches (Star r) s2 rest.
Proof.
  intros H.
  remember (Star r) as r' eqn:Er. remember (String c s) as s' eqn:Es.
  revert Er Es. induction H; try discriminate.
  intros [= ->] Es.
  destruct s1 as [ | d s1]; cbn in Es.
  - auto.
  - injection Es as -> <-. eauto.
Qed.

(** The derivative is what remains to be matched after [c]. *)
Lemma deriv_correct start r :
  well_formed r = true ->
  forall c s rest,
    matches (deriv start (String c (s ++ rest)) c r) s rest
    <-> matches r (String c s) rest.
Proof.
  induction r as [ | | p | r1 IH1 r2 IH2 | r1 IH1 r2 IH2 | r IH
                 | lo hi r IH | | ];
    cbn [well_formed deriv]; intros Hwf c s rest.
  - split; inversion 1.
  - split; inversion 1.
  - destruct (p c) eqn:Hp.
    + rewrite matches_Eps.
      split; [intros ->; now constructor | now inversion 1].
    + split; [inversion 1 | inversion 1; congruence].
  - apply andb_true_iff in Hwf as [W1 W2].
    rewrite matches_alt, matches_Alt, matches_cat, !matches_Cat. split.
    + intros [(s1 & s2 & -> & H1 & H2) | Hn].
      * rewrite append_assoc in H1. apply (IH1 W1) in H1.
        exists (String c s1), s2. auto.
      * destruct (nullable start (String c (s ++ rest)) r1) eqn:Hnull;
          [ | inversion Hn].
        apply (nullable_correct _ _ _ W1) in Hnull.
        apply (IH2 W2) in Hn.
        exists EmptyString, (String c s). auto.
    + intros (s1 & s2 & Es & H1 & H2).
      destruct s1 as [ | d s1]; cbn in Es.
      * subst s2. right.
        apply (nullable_correct start _ _ W1) in H1. cbn in H1. rewrite H1.
        now apply (IH2 W2).
      * injection Es as <- ->. left. exists s1, s2.
        split; [reflexivity | split; [ | exact H2] ].
        rewrite append_assoc. now apply (IH1 W1).
  - apply andb_true_iff in Hwf as [W1 W2].
    now rewrite matches_alt, !matches_Alt, (IH1 W1), (IH2 W2).
  - rewrite matches_cat, matches_Cat. split.
    + intros (s1 & s2 & -> & H1 & H2).
      rewrite append_assoc in H1. apply (IH Hwf) in H1.
      change (String c (s1 ++ s2)) with (String c s1 ++ s2).
      constructor; assumption.
    + intros H. apply matches_Star_cons in H as (s1 & s2 & -> & H1 & H2).
      exists s1, s2. split; [reflexivity | split; [ | exact H2] ].
      rewrite append_assoc. now apply (IH Hwf).
  - apply andb_true_iff in Hwf as [Hwf Hne].
    apply andb_true_iff in Hwf as [Hle W].
    destruct hi as [ | hi].
    + split; inversion 1.
    + rewrite matches_cat, matches_Cat. split.
      * intros (s1 & s2 & -> & H1 & H2).
        rewrite append_assoc in H1. apply (IH W) in H1.
        change (String c (s1 ++ s2)) with (String c s1 ++ s2).
        constructor; assumption.
      * inversion 1 as [ | | | | | | | | ? ? ? s1 s2 ? H1 H2 Er Es | ];
          subst.
        destruct s1 as [ | d s1]; cbn in Es.
        -- apply (never_empty_sound _ _ _ Hne) in H1. congruence.
        -- injection Es as -> <-. exists s1, s2.
           split; [reflexivity | split; [ | exact H2] ].
           rewrite append_assoc. now apply (IH W).
  - discriminate.
  - split; inversion 1.
Qed.

(** The matcher says yes exactly when some prefix of the subject is
    matched by the pattern. *)
Lemma match_at_correct s :
  forall start r,
    well_formed r = true ->
    (match_at start r s = true <->
     exists s1 s2, s = s1 ++ s2 /\ matches r s1 s2).
Proof.
  induction s as [ | c s IH]; intros start r Hwf; cbn [match_at].
  - rewrite orb_false_r, (nullable_correct _ _ _ Hwf). split.
    + intros H. exists EmptyString, EmptyString. auto.
    + intros (s1 & s2 & E & H). destruct s1; [ | discriminate].
      cbn in E. now subst.
  - rewrite orb_true_iff, (nullable_correct _ _ _ Hwf),
      (IH false _ (well_formed_deriv start (String c s) c r Hwf)).
    split.
    + intros [H | (s1 & s2 & -> & H)].
      * exists EmptyString, (String c s). auto.
      * exists (String c s1), s2. split; [reflexivity | ].
        now apply (deriv_correct start r Hwf).
    + intros (s1 & s2 & E & H). destruct s1 as [ | d s1]; cbn in E.
      * subst s2. now left.
      * injection E as <- ->. right. exists s1, s2.
        split; [reflexivity | ].
        now apply (deriv_correct start r Hwf).
Qed.

Lemma matches_Class p s rest :
  matches (Class p) s rest <-> exists c, s = String c EmptyString /\ p c = true.
Proof.
  split.
  - inversion 1; subst. eauto.
  - intros (c & -> & H). now constructor.
Qed.

Lemma matches_Eol s rest :
  matches Eol s rest <-> s = EmptyString /\ at_eol rest = true.
Proof.
  split.
  - inversion 1; subst. auto.
  - intros [-> H]. now constructor.
Qed.

Lemma matches_Repeat_Class n p s rest :
  matches (Repeat 0 n (Class p)) s rest <->
  (String.length s <= n)%nat /\ all_chars p s = true.
Proof.
  revert s. induction n as [ | n IH]; intros s.
  - split.
    + inversion 1; subst. cbn. auto.
    + intros [Hlen _]. destruct s; [constructor | cbn in Hlen; lia].
  - split.
    + inversion 1 as [ | | | | | | | | ? ? ? s1 s2 ? H1 H2 | ]; subst.
      * cbn. split; [lia | reflexivity].
      * apply matches_Class in H1 as (c & -> & Hc).
        apply IH in H2 as [Hlen Hall]. cbn. rewrite Hc, Hall.
        split; [lia | reflexivity].
    + intros [Hlen Hall]. destruct s as [ | c s]; [constructor | ].
      cbn in Hlen, Hall. apply andb_true_iff in Hall as [Hc Hall].
      change (String c s) with (String c EmptyString ++ s).
      constructor; [now constructor | ].
      apply IH. split; [lia | assumption].
Qed.

Lemma snoc_cases (t : string) :
  t = EmptyString \/ exists mid d, t = mid ++ String d EmptyString.
Proof.
  induction t as [ | c t IH]; [now left | right].
  destruct IH as [-> | (mid & d & ->)].
  - exists EmptyString, c. reflexivity.
  - exists (String c mid), d. reflexivity.
Qed.

Lemma length_snoc (mid : string) (d : ascii) :
  String.length (mid ++ String d EmptyString) = S (String.length mid).
Proof.
  induction mid as [ | c mid IH]; cbn; [reflexivity | now rewrite IH].
Qed.

Lemma ends_alnum_snoc (mid : string) (d : ascii) :
  ends_alnum (mid ++ String d EmptyString) = is_alnum d.
Proof.
  induction mid as [ | c mid IH]; [reflexivity | ].
  cbn [append ends_alnum]. rewrite IH. destruct mid; reflexivity.
Qed.

Lemma all_chars_app (p : ascii -> bool) (a b : string) :
  all_chars p (a ++ b) = all_chars p a && all_chars p b.
Proof.
  induction a as [ | c a IH]; cbn; [reflexivity | now rewrite IH, andb_assoc].
Qed.

Lemma alnum_label_char (c : ascii) : is_alnum c = true -> label_char c = true.
Proof.
  unfold label_char. now intros ->.
Qed.

Lemma matches_label (l rest : string) :
  matches label l rest <-> label_ok l = true.
Proof.
  unfold label, Opt, alnum, alnum_hyphen.
  change (fun c : ascii => is_alnum c || (c =? "-")%char) with label_char.
  rewrite matches_Cat. split.
  - intros (s1 & s2 & -> & H1 & H2).
    apply matches_Class in H1 as (c & -> & Hc).
    apply matches_Alt in H2 as [H2 | H2].
    + apply matches_Cat in H2 as (mid & last & -> & Hmid & Hlast).
      apply matches_Repeat_Class in Hmid as [Hlen Hall].
      apply matches_Class in Hlast as (d & -> & Hd).
      unfold label_ok. cbn [append String.length starts_alnum all_chars].
      rewrite length_snoc, all_chars_app, Hall, Hc, (alnum_label_char _ Hc).
      cbn [all_chars]. rewrite (alnum_label_char _ Hd).
      change (ends_alnum (String c (mid ++ String d EmptyString)))
        with (ends_alnum (String c mid ++ String d EmptyString)).
      rewrite ends_alnum_snoc, Hd.
      replace (S (S (String.length mid)) <=? 63)%nat with true
        by (symmetry; apply Nat.leb_le; lia).
      reflexivity.
    + apply matches_Eps in H2 as ->.
      unfold label_ok. cbn. now rewrite Hc, (alnum_label_char _ Hc).
  - unfold label_ok. intros H.
    apply andb_true_iff in H as [H Hall].
    apply andb_true_iff in H as [H Hend].
    apply andb_true_iff in H as [H Hstart].
    apply andb_true_iff in H as [_ Hlen]. apply Nat.leb_le in Hlen.
    destruct l as [ | c t]; [discriminate Hstart | ].
    cbn [starts_alnum] in Hstart. cbn [all_chars] in Hall.
    apply andb_true_iff in Hall as [_ Hall].
    exists (String c EmptyString), t. split; [reflexivity | ].
    split; [apply matches_Class; eauto | ].
    apply matches_Alt.
    destruct (snoc_cases t) as [-> | (mid & d & ->)].
    + right. constructor.
    + left. apply matches_Cat. exists mid, (String d EmptyString).
      split; [reflexivity | ].
      change (ends_alnum (String c (mid ++ String d EmptyString)))
        with (ends_alnum (String c mid ++ String d EmptyString)) in Hend.
      rewrite ends_alnum_snoc in Hend.
      rewrite all_chars_app in Hall. apply andb_true_iff in Hall as [Hall _].
      cbn [String.length] in Hlen. rewrite length_snoc in Hlen.
      split; [ | apply matches_Class; eauto].
      apply matches_Repeat_Class. split; [lia | assumption].
Qed.

End Patterns.

(** ** The rules on strings *)

Section Rules.

Lemma Return_inj {A} (a b : A) : Return a = Return b -> a = b.
Proof.
  intros H. now injection H.
Qed.

Lemma match_at_Fail (start : bool) (s : string) : match_at start Fail s = false.
Proof.
  revert start. induction s as [ | c s IH]; intros start; cbn; auto.
Qed.

(** Apart from the port rule, every rule of the registry answers with a
    boolean whatever it is given. *)
Lemma validators_total (name : string) (rule : value -> result bool) :
  In (name, rule) validators -> name <> "validate_port" ->
  forall v, exists b, rule v = Return b.
Proof.
  unfold validators. cbn [In].
  intros [H | [H | [H | [H | [H | [H | [H | [] ] ] ] ] ] ] ] Hname v;
    injection H as <- <-; try congruence;
    unfold validate_php_version, validate_database_name,
      validate_domain_name, validate_git_url, validate_password_strength,
      validate_email;
    destruct v; eauto;
    repeat match goal with
           | |- context [if ?c then _ else _] => destruct c
           end; eauto.
Qed.

Lemma match_at_Eol (s : string) : match_at false Eol s = at_eol s.
Proof.
  destruct s as [ | c s]; cbn -[at_eol]; [reflexivity | ].
  now rewrite match_at_Fail, orb_false_r.
Qed.

(** The version pattern, read off character by character. *)
Lemma re_match_php_version (s : string) :
  re_match php_version_pattern s
  = match s with
    | String a (String b (String c rest)) =>
        one_of "78" a && Ascii.eqb "." b && is_digit c && at_eol rest
    | _ => false
    end.
Proof.
  unfold re_match, php_version_pattern.
  destruct s as [ | a s]; [reflexivity | ].
  cbn -[one_of is_digit Ascii.eqb at_eol].
  destruct (one_of "78" a); cbn -[one_of is_digit Ascii.eqb at_eol];
    [ | rewrite match_at_Fail; destruct s as [ | b [ | c rest] ]; reflexivity].
  destruct s as [ | b s]; [reflexivity | ].
  cbn -[one_of is_digit Ascii.eqb at_eol].
  destruct (Ascii.eqb "." b); cbn -[one_of is_digit Ascii.eqb at_eol];
    [ | rewrite match_at_Fail; destruct s; reflexivity].
  destruct s as [ | c rest]; [reflexivity | ].
  cbn -[one_of is_digit Ascii.eqb at_eol].
  destruct (is_digit c); cbn -[one_of is_digit Ascii.eqb at_eol];
    [ | now rewrite match_at_Fail].
  apply match_at_Eol.
Qed.

(** X3. The version rule accepts the three-character versions and each of
    them followed by one line feed, and nothing else. *)
Lemma validate_php_version_accepts (v : value) :
  validate_php_version v = Return true <->
  exists s, v = PyStr s
    /\ (php_version_ok s = true
        \/ exists s', s = s' ++ str1 nl /\ php_version_ok s' = true).
Proof.
  split.
  - destruct v as [ | | | | s | | ]; try discriminate.
    unfold validate_php_version. rewrite re_match_php_version.
    destruct s as [ | a [ | b [ | c rest] ] ]; try discriminate.
    intros H. apply Return_inj in H.
    apply andb_true_iff in H as [H Heol].
    exists (String a (String b (String c rest))). split; [reflexivity | ].
    destruct rest as [ | d [ | e rest] ]; [now left | | discriminate Heol].
    apply Ascii.eqb_eq in Heol. subst d. right.
    exists (String a (String b (String c EmptyString))).
    split; [reflexivity | exact H].
  - intros (s & -> & [H | (s' & -> & H)]);
      unfold validate_php_version; rewrite re_match_php_version.
    + destruct s as [ | a [ | b [ | c [ | d rest] ] ] ]; try discriminate H.
      cbn [php_version_ok] in H. now rewrite H.
    + destruct s' as [ | a [ | b [ | c [ | d rest] ] ] ]; try discriminate H.
      cbn [php_version_ok] in H. cbn [append str1]. now rewrite H.
Qed.

Lemma remove_dangerous (s : string) :
  fold_left (fun sanitized char => remove_char char sanitized)
    dangerous_chars s
  = Spec.without_dangerous s.
Proof.
  unfold dangerous_chars; cbn [fold_left].
  induction s as [ | c s IH]; [reflexivity | ].
  destruct c as [ [] [] [] [] [] [] [] [] ]; cbn; rewrite <- ?IH; reflexivity.
Qed.

(** On a string the sanitizer removes and trims as described. *)
Lemma sanitize_input_str (float_repr : spec_float -> string) (s : string) :
  sanitize_input float_repr (PyStr s) = Return (Spec.sanitized s).
Proof.
  unfold sanitize_input, Spec.sanitized. now rewrite remove_dangerous.
Qed.

(** The sanitizer answers with a string whatever it is given. *)
Lemma sanitize_input_total (float_repr : spec_float -> string) (v : value) :
  exists s, sanitize_input float_repr v = Return s.
Proof.
  destruct v; cbn; eauto.
Qed.

Lemma sanitize_input_examples (float_repr : spec_float -> string) :
  sanitize_input float_repr (PyStr "a;b`c") = Return "abc"
  /\ sanitize_input float_repr (PyInt 42) = Return "42".
Proof.
  split; reflexivity.
Qed.

End Rules.

(** ** The domain rule *)

Section Domain.

Import Spec.

Lemma label_ok_no_dot (l : string) : label_ok l = true -> no_dot l = true.
Proof.
  unfold label_ok, no_dot. intros H. apply andb_true_iff in H as [_ H].
  induction l as [ | c l IH]; [reflexivity | ].
  cbn [all_chars] in *. apply andb_true_iff in H as [Hc Hl].
  rewrite (IH Hl), andb_true_r.
  destruct (Ascii.eqb c ".") eqn:E; [ | reflexivity].
  apply Ascii.eqb_eq in E. subst c. discriminate Hc.
Qed.

Lemma split_dots_label (l : string) :
  no_dot l = true -> split_dots l = [l].
Proof.
  unfold no_dot.
  induction l as [ | c l IH]; [reflexivity | ].
  cbn [all_chars split_dots]. intros H.
  apply andb_true_iff in H as [Hc Hl]. apply negb_true_iff in Hc.
  now rewrite Hc, (IH Hl).
Qed.

Lemma split_dots_dot (l rest : string) :
  no_dot l = true ->
  split_dots (l ++ String "." rest) = l :: split_dots rest.
Proof.
  unfold no_dot.
  induction l as [ | c l IH]; [reflexivity | ].
  cbn [all_chars split_dots append]. intros H.
  apply andb_true_iff in H as [Hc Hl]. apply negb_true_iff in Hc.
  now rewrite Hc, (IH Hl).
Qed.

Lemma split_dots_nonempty (s : string) : split_dots s <> [].
Proof.
  destruct s as [ | c s]; cbn; [discriminate | ].
  destruct (Ascii.eqb c "."); [discriminate | ].
  destruct (split_dots s); discriminate.
Qed.

Lemma concat_cons_char (c : ascii) (l : string) (ls : list string) :
  String.concat "." (String c l :: ls) = String c (String.concat "." (l :: ls)).
Proof.
  destruct ls; reflexivity.
Qed.

Lemma concat_split_dots (s : string) :
  String.concat "." (split_dots s) = s.
Proof.
  induction s as [ | c s IH]; [reflexivity | ].
  cbn [split_dots].
  pose proof (split_dots_nonempty s) as Hne.
  destruct (split_dots s) as [ | l ls]; [congruence | ].
  destruct (Ascii.eqb c ".") eqn:E.
  - apply Ascii.eqb_eq in E. subst c.
    change (String.concat "." (EmptyString :: l :: ls))
      with (String "." (String.concat "." (l :: ls))).
    now rewrite IH.
  - now rewrite concat_cons_char, IH.
Qed.

Lemma dotted_labels_ok (s1 rest : string) :
  matches dotted s1 rest ->
  forall l, labels_ok l = true -> labels_ok (s1 ++ l) = true.
Proof.
  unfold dotted. intros H.
  remember (Star (Cat label (Chr "."))) as r eqn:Er.
  induction H; try discriminate; intros l Hl; [exact Hl | ].
  injection Er as ->.
  apply matches_Cat in H as (l0 & dot & -> & Hl0 & Hdot).
  apply matches_label in Hl0.
  apply matches_Class in Hdot as (c & -> & Hc).
  apply Ascii.eqb_eq in Hc. subst c.
  rewrite !append_assoc. cbn [append].
  unfold labels_ok. rewrite (split_dots_dot _ _ (label_ok_no_dot _ Hl0)).
  cbn [forallb]. rewrite Hl0. now apply IHmatches2.
Qed.

Lemma labels_dotted (ls : list string) :
  ls <> [] -> forallb label_ok ls = true ->
  exists s1 l,
    String.concat "." ls = s1 ++ l /\ label_ok l = true
    /\ forall rest, matches dotted s1 rest.
Proof.
  induction ls as [ | l0 ls IH]; [congruence | intros _ H].
  cbn [forallb] in H. apply andb_true_iff in H as [H0 Hls].
  destruct ls as [ | l1 ls].
  - exists EmptyString, l0. repeat split; [assumption | constructor].
  - destruct (IH ltac:(discriminate) Hls) as (s1 & l & E & Hl & Hs1).
    exists ((l0 ++ String "." EmptyString) ++ s1), l.
    split; [ | split; [exact Hl | ] ].
    + change (String.concat "." (l0 :: l1 :: ls))
        with (l0 ++ String "." (String.concat "." (l1 :: ls))).
      rewrite E, !append_assoc. reflexivity.
    + intros rest. constructor; [ | apply Hs1].
      apply matches_Cat. exists l0, (String "." EmptyString).
      split; [reflexivity | ].
      split; [now apply matches_label | ].
      apply matches_Class. exists "."%char. split; reflexivity.
Qed.

Lemma matches_domain_body (s rest : string) :
  matches (Cat dotted (Cat label Eol)) s rest
  <-> labels_ok s = true /\ at_eol rest = true.
Proof.
  split.
  - intros H. apply matches_Cat in H as (s1 & s2 & -> & H1 & H2).
    apply matches_Cat in H2 as (l & e & -> & Hl & He).
    apply matches_Eol in He as [-> He].
    apply matches_label in Hl.
    split; [ | exact He].
    apply (dotted_labels_ok _ _ H1).
    rewrite append_nil_r.
    unfold labels_ok. rewrite (split_dots_label _ (label_ok_no_dot _ Hl)).
    cbn. now rewrite Hl.
  - intros [Hs He].
    destruct (labels_dotted (split_dots s) (split_dots_nonempty s) Hs)
      as (s1 & l & E & Hl & Hs1).
    rewrite concat_split_dots in E. subst s.
    apply matches_Cat. exists s1, l. split; [reflexivity | ].
    split; [apply Hs1 | ].
    apply matches_Cat. exists l, EmptyString.
    split; [now rewrite append_nil_r | ].
    split; [now apply matches_label | now apply matches_Eol].
Qed.

Lemma match_at_Bol (r : regex) (s : string) :
  match_at true (Cat Bol r) s = match_at true r s.
Proof.
  destruct s; reflexivity.
Qed.

Lemma at_eol_cases (rest : string) :
  at_eol rest = true <-> rest = EmptyString \/ rest = String nl EmptyString.
Proof.
  destruct rest as [ | c [ | d rest] ]; cbn.
  - intuition.
  - split.
    + intros H. apply Ascii.eqb_eq in H. subst. now right.
    + intros [H | H]; [discriminate | ]. injection H as ->. reflexivity.
  - split; [discriminate | intros [H | H]; discriminate].
Qed.

Lemma re_match_domain_name (s : string) :
  re_match domain_name_pattern s = true
  <-> labels_ok s = true
      \/ exists s', s = s' ++ String nl EmptyString /\ labels_ok s' = true.
Proof.
  unfold re_match, domain_name_pattern. cbn [Seq].
  rewrite match_at_Bol.
  change (Star (Cat label (Chr "."))) with dotted.
  rewrite (match_at_correct s true (Cat dotted (Cat label Eol)) eq_refl).
  split.
  - intros (s1 & s2 & -> & H). apply matches_domain_body in H as [H1 H2].
    apply at_eol_cases in H2 as [-> | ->].
    + left. now rewrite append_nil_r.
    + right. eauto.
  - intros [H | (s' & -> & H)].
    + exists s, EmptyString. split; [now rewrite append_nil_r | ].
      apply matches_domain_body. auto.
    + exists s', (String nl EmptyString). split; [reflexivity | ].
      apply matches_domain_body. auto.
Qed.

(** X4. The domain rule accepts the strings of 1 to 253 characters that
    are labels separated by dots, and also such a name followed by one
    line feed when the whole is at most 253 long; nothing else. *)
Lemma validate_domain_name_accepts (v : value) :
  validate_domain_name v = Return true <->
  exists s, v = PyStr s
    /\ (1 <= String.length s <= 253)%nat
    /\ (labels_ok s = true
        \/ exists s', s = s' ++ String nl EmptyString /\ labels_ok s' = true).
Proof.
  split.
  - destruct v as [ | | | | s | | ]; try discriminate.
    unfold validate_domain_name.
    destruct (String.length s =? 0)%nat eqn:E0; [discriminate | ].
    destruct (253 <? String.length s)%nat eqn:E253; [discriminate | ].
    intros H. exists s. split; [reflexivity | ].
    apply Nat.eqb_neq in E0. apply Nat.ltb_ge in E253.
    split; [lia | ].
    apply re_match_domain_name. congruence.
  - intros (s & -> & [Hlo Hhi] & H). unfold validate_domain_name.
    replace (String.length s =? 0)%nat with false
      by (symmetry; apply Nat.eqb_neq; lia).
    replace (253 <? String.length s)%nat with false
      by (symmetry; apply Nat.ltb_ge; lia).
    f_equal. now apply re_match_domain_name.
Qed.

End Domain.

(** C5 fails on the code: a value that is no string is returned as its
    [str] at once, with nothing removed; the list [['a;b']] keeps its
    semicolon. *)
Theorem sanitize_input_skips_non_strings :
  forall float_repr : spec_float -> string,
    let input := PyList [PyStr "a;b"] in
    sanitize_input float_repr input = Return "['a;b']"
    /\ Spec.sanitized (str float_repr input) = "['ab']"
    /\ sanitize_input float_repr input
       <> Return (Spec.sanitized (str float_repr input)).
Proof.
  intros float_repr input. repeat split. discriminate.
Qed.

(** C8 fails on the code: the pattern ends with [$], which also holds
    before a final line feed, so the four characters of ["8.1\n"] are
    accepted. *)
Theorem validate_php_version_trailing_newline :
  validate_php_version (PyStr ("8.1" ++ str1 nl)) = Return true
  /\ php_version_ok ("8.1" ++ str1 nl) = false
  /\ String.length ("8.1" ++ str1 nl) = 4%nat.
Proof.
  repeat split; reflexivity.
Qed.

(** C9 fails on the code in the same way: ["localhost\n"], whose last
    character is neither alphanumeric nor a hyphen nor a dot, is
    accepted. *)
Theorem validate_domain_name_trailing_newline :
  validate_domain_name (PyStr ("localhost" ++ str1 nl)) = Return true
  /\ domain_name_ok ("localhost" ++ str1 nl) = false
  /\ label_char nl = false
  /\ validate_domain_name (PyStr "localhost") = Return true
  /\ validate_domain_name (PyStr "-bad-.com") = Return false.
Proof.
  repeat split; reflexivity.
Qed.

(** ** The generator *)

Section Generator.

Local Open Scope gen_scope.

Lemma bind_Return {A B} (g : gen A) (k : A -> gen B) t a t' :
  g t = Return (a, t') -> bind g k t = k a t'.
Proof.
  unfold bind. now intros ->.
Qed.

Lemma get_contains (s : string) (i : nat) (c : ascii) :
  String.get i s = Some c -> contains s c = true.
Proof.
  revert i. induction s as [ | d s IH]; intros i; [discriminate | ].
  destruct i as [ | i]; cbn.
  - intros [= ->]. now rewrite Ascii.eqb_refl.
  - intros H. rewrite (IH _ H). apply orb_true_r.
Qed.

Lemma get_below (s : string) (i : nat) :
  (i < String.length s)%nat -> exists c, String.get i s = Some c.
Proof.
  revert i. induction s as [ | d s IH]; intros i; cbn; [lia | ].
  destruct i as [ | i]; [eauto | ].
  intros H. apply IH. lia.
Qed.

Lemma contains_app (s1 s2 : string) (c : ascii) :
  contains (s1 ++ s2) c = contains s1 c || contains s2 c.
Proof.
  induction s1 as [ | d s1 IH]; cbn; [reflexivity | ].
  now rewrite IH, orb_assoc.
Qed.

Lemma contains_string_of_list (l : list ascii) (c : ascii) :
  contains (string_of_list_ascii l) c = existsb (fun d => Ascii.eqb d c) l.
Proof.
  induction l as [ | d l IH]; cbn; [reflexivity | now rewrite IH].
Qed.

Lemma length_string_of_list (l : list ascii) :
  String.length (string_of_list_ascii l) = List.length l.
Proof.
  induction l as [ | d l IH]; cbn; [reflexivity | now rewrite IH].
Qed.

(** A draw from a non-empty alphabet gives one of its characters. *)
Lemma choice_returns (seq : string) (t : source) :
  seq <> EmptyString ->
  exists c, choice seq t = Return (c, advance t) /\ contains seq c = true.
Proof.
  intros Hseq. unfold choice.
  destruct seq as [ | d seq]; [congruence | ].
  set (alphabet := String d seq).
  assert (t 0%nat mod String.length alphabet < String.length alphabet)%nat
    as Hlt by (apply Nat.mod_upper_bound; discriminate).
  destruct (get_below _ _ Hlt) as [c Hc].
  exists c. split; [ | exact (get_contains _ _ _ Hc)].
  unfold bind, randbelow, bind, draw, ret. now rewrite Hc.
Qed.

(** Repeating a generator that always returns something good returns as
    many good things as asked for. *)
Lemma times_returns {A} (g : gen A) (P : A -> Prop) :
  (forall t, exists a t', g t = Return (a, t') /\ P a) ->
  forall n t, exists l t',
    times n g t = Return (l, t') /\ List.length l = n /\ Forall P l.
Proof.
  intros Hg. induction n as [ | n IH]; intros t; cbn [times].
  - exists [], t. repeat split. constructor.
  - destruct (Hg t) as (a & t1 & Ha & Pa).
    destruct (IH t1) as (l & t2 & Hl & Hlen & Pl).
    exists (a :: l), t2.
    rewrite (bind_Return _ _ _ _ _ Ha), (bind_Return _ _ _ _ _ Hl).
    repeat split; [cbn; now rewrite Hlen | now constructor].
Qed.

Lemma characters_for_nonempty (complexity : value) :
  characters_for complexity <> EmptyString.
Proof.
  unfold characters_for.
  destruct (eq_str complexity "high"); [discriminate | ].
  destruct (eq_str complexity "medium"); discriminate.
Qed.

Lemma characters_for_alphabet (complexity : value) :
  characters_for complexity = Spec.alphabet complexity.
Proof.
  unfold characters_for, Spec.alphabet.
  destruct complexity as [ | | | | s | | ]; cbn [eq_str];
    try reflexivity.
  destruct (String.eqb s "high"); [reflexivity | ].
  destruct (String.eqb s "medium"); reflexivity.
Qed.

Lemma generate_password_returns (length : Z) (complexity : value)
    (t : source) :
  exists password t',
    generate_password length complexity t = Return (password, t')
    /\ String.length password = Z.to_nat length
    /\ forallb (contains (characters_for complexity))
         (list_ascii_of_string password) = true.
Proof.
  unfold generate_password.
  destruct (times_returns (choice (characters_for complexity))
              (fun c => contains (characters_for complexity) c = true)
              ltac:(intros t0;
                    destruct (choice_returns _ t0
                                (characters_for_nonempty complexity))
                      as (c & Hc & Pc); eauto)
              (Z.to_nat length) t)
    as (l & t' & Hl & Hlen & Pl).
  exists (string_of_list_ascii l), t'.
  rewrite (bind_Return _ _ _ _ _ Hl).
  split; [reflexivity | ].
  split; [now rewrite length_string_of_list | ].
  rewrite list_ascii_of_string_of_list_ascii.
  apply forallb_forall. now apply Forall_forall.
Qed.

End Generator.

(** C6. For a length that is not negative, the password has exactly that
    many characters, all of them from the alphabet of the complexity:
    letters, digits and [!@#$%^&*] for ['high'], letters and digits
    otherwise. *)
Theorem generate_password_length_and_alphabet :
  forall (length : Z) (complexity : value) (t : source),
    0 <= length ->
    exists password t',
      generate_password length complexity t = Return (password, t')
      /\ Z.of_nat (String.length password) = length
      /\ forallb (contains (Spec.alphabet complexity))
           (list_ascii_of_string password) = true.
Proof.
  intros length complexity t Hlength.
  destruct (generate_password_returns length complexity t)
    as (password & t' & Hrun & Hlen & Hchars).
  exists password, t'. split; [exact Hrun | ].
  split; [rewrite Hlen; apply Z2Nat.id; exact Hlength | ].
  now rewrite <- characters_for_alphabet.
Qed.

Lemma generate_password_16_high :
  0 <= 16
  /\ exists password t',
       generate_password 16 (PyStr "high") Spec.sample_source
       = Return (password, t')
       /\ Z.of_nat (String.length password) = 16
       /\ forallb (contains Spec.high_alphabet)
            (list_ascii_of_string password) = true.
Proof.
  split; [lia | ].
  apply (generate_password_length_and_alphabet 16 (PyStr "high")
           Spec.sample_source).
  lia.
Defined.

(** ** The bundle and its template *)

Section Bundle.

Import Spec.
Local Open Scope gen_scope.

Lemma within_nil (set : string) : within set EmptyString.
Proof.
  intros c H. discriminate H.
Qed.

Lemma within_cons (set : string) (d : ascii) (s : string) :
  contains set d = true -> within set s -> within set (String d s).
Proof.
  intros Hd Hs c. cbn. intros H. apply orb_true_iff in H as [H | H].
  - apply Ascii.eqb_eq in H. now subst c.
  - now apply Hs.
Qed.

Lemma forallb_within (set s : string) :
  forallb (contains set) (list_ascii_of_string s) = true -> within set s.
Proof.
  induction s as [ | d s IH]; cbn; intros H; [apply within_nil | ].
  apply andb_true_iff in H as [Hd Hs]. apply within_cons; auto.
Qed.

Lemma within_free (set s : string) (c : ascii) :
  contains set c = false -> within set s -> contains s c = false.
Proof.
  intros Hset Hs. destruct (contains s c) eqn:E; [ | reflexivity].
  apply Hs in E. congruence.
Qed.

Lemma b64_char_within (n : nat) :
  contains (b64_alphabet ++ "=") (b64_char n) = true.
Proof.
  unfold b64_char. destruct (String.get n b64_alphabet) as [c | ] eqn:E.
  - rewrite contains_app, (get_contains _ _ _ E). reflexivity.
  - reflexivity.
Qed.

Lemma urlsafe_b64encode_within (bs : list nat) :
  within (b64_alphabet ++ "=") (urlsafe_b64encode bs).
Proof.
  assert (forall n bs, (List.length bs < n)%nat ->
                       within (b64_alphabet ++ "=") (urlsafe_b64encode bs))
    as H.
  { clear bs. induction n as [ | n IH]; intros bs Hlen; [lia | ].
    destruct bs as [ | a [ | b [ | c rest] ] ]; cbn [urlsafe_b64encode].
    - apply within_nil.
    - repeat (apply within_cons; [first [apply b64_char_within
                                         | reflexivity] | ]).
      apply within_nil.
    - repeat (apply within_cons; [first [apply b64_char_within
                                         | reflexivity] | ]).
      apply within_nil.
    - do 4 (apply within_cons; [apply b64_char_within | ]).
      apply IH. cbn in Hlen. lia. }
  apply (H (S (List.length bs))). lia.
Qed.

Lemma rstrip_char_within (set : string) (c : ascii) (s : string) :
  within set s -> within set (rstrip_char c s).
Proof.
  induction s as [ | d s IH]; intros Hs; [apply within_nil | ].
  assert (contains set d = true) as Hd
    by (apply Hs; cbn; now rewrite Ascii.eqb_refl).
  assert (within set s) as Hs'
    by (intros x Hx; apply Hs; cbn; rewrite Hx; apply orb_true_r).
  specialize (IH Hs'). cbn [rstrip_char].
  destruct (rstrip_char c s) as [ | e r].
  - destruct (Ascii.eqb d c); [apply within_nil | ].
    apply within_cons; [exact Hd | apply within_nil].
  - apply within_cons; assumption.
Qed.

Lemma token_urlsafe_returns (nbytes : Z) (t : source) :
  exists token t',
    token_urlsafe nbytes t = Return (token, t')
    /\ within (b64_alphabet ++ "=") token.
Proof.
  unfold token_urlsafe, token_bytes.
  destruct (times_returns (r <- draw ;; ret (r mod 256)%nat)
              (fun _ => True)
              ltac:(intros t0; eexists; eexists; split;
                    [reflexivity | exact I])
              (Z.to_nat nbytes) t)
    as (tok & t' & Htok & _ & _).
  exists (rstrip_char "=" (urlsafe_b64encode tok)), t'.
  rewrite (bind_Return _ _ _ _ _ Htok).
  split; [reflexivity | ].
  apply rstrip_char_within, urlsafe_b64encode_within.
Qed.

Lemma mksalt_sha512_returns (t : source) :
  exists salt t', mksalt_sha512 t = Return (salt, t').
Proof.
  unfold mksalt_sha512.
  destruct (times_returns (choice saltchars) (fun _ => True)
              ltac:(intros t0;
                    destruct (choice_returns saltchars t0
                                ltac:(discriminate))
                      as (c & Hc & _); eauto)
              16%nat t)
    as (cs & t' & Hcs & _ & _).
  rewrite (bind_Return _ _ _ _ _ Hcs). unfold ret. eauto.
Qed.

Lemma hash_password_returns (crypt : string -> string -> string)
    (password : string) (t : source) :
  exists salt t',
    hash_password crypt password t = Return (crypt password salt, t').
Proof.
  unfold hash_password.
  destruct (mksalt_sha512_returns t) as (salt & t' & Hsalt).
  exists salt, t'. now rewrite (bind_Return _ _ _ _ _ Hsalt).
Qed.

(** *** Lines *)

Lemma append_String (l : string) (c : ascii) (rest : string) :
  (l ++ str1 c) ++ rest = l ++ String c rest.
Proof.
  induction l as [ | d l IH]; cbn; [reflexivity | now rewrite IH].
Qed.

Lemma unlines_cons (l : string) (ls : list string) :
  unlines (l :: ls) = l ++ String nl (unlines ls).
Proof.
  unfold unlines. cbn [map String.concat].
  destruct ls as [ | l' ls]; cbn [map].
  - reflexivity.
  - now rewrite append_String.
Qed.

Lemma split_lines_line (l rest : string) :
  contains l nl = false ->
  split_lines (l ++ String nl rest) = l :: split_lines rest.
Proof.
  induction l as [ | c l IH]; cbn [contains append split_lines]; intros H.
  - now rewrite Ascii.eqb_refl.
  - apply orb_false_iff in H as [Hc Hl].
    rewrite Hc, (IH Hl). reflexivity.
Qed.

Lemma split_lines_unlines (ls : list string) :
  Forall (fun l => contains l nl = false) ls ->
  split_lines (unlines ls) = (ls ++ [EmptyString])%list.
Proof.
  induction 1 as [ | l ls Hl _ IH]; [reflexivity | ].
  rewrite unlines_cons, (split_lines_line _ _ Hl), IH. reflexivity.
Qed.

Lemma unquote_tail_quoted (s : string) :
  unquote_tail (s ++ str1 dquote) = Some s.
Proof.
  induction s as [ | c s IH]; [reflexivity | ].
  cbn [append unquote_tail]. rewrite IH.
  destruct s; reflexivity.
Qed.

Lemma entry_free_of_nl (key value : string) :
  contains key nl = false -> contains value nl = false ->
  contains (key ++ quoted value) nl = false.
Proof.
  intros Hkey Hvalue. unfold quoted.
  rewrite contains_app, Hkey. cbn [contains orb].
  rewrite contains_app, Hvalue. reflexivity.
Qed.

Lemma sample_crypt_free_of_nl (word salt : string) :
  contains (sample_crypt word salt) nl = false.
Proof.
  unfold sample_crypt. rewrite contains_app.
  rewrite (within_free (b64_alphabet ++ "=") _ nl eq_refl
             (urlsafe_b64encode_within _)).
  reflexivity.
Qed.

End Bundle.

Import Spec.

(** C1. One run of the bundle-building part of [main] gives the seven
    secrets under their seven keys and one hash, the hash of the adminer
    password; in the template the Laravel password is the password of the
    only database user, the admin user is ["dbadmin"], the database user is
    ["laravel_user"] with the fixed privileges, and the application key
    starts with ["base64:"].  (The hash routine is the C library's; all
    that is asked of it is that a hash holds no line feed.) *)
Theorem main_builds_consistent_bundle :
  forall (crypt : string -> string -> string) (t : source),
    (forall word salt, contains (crypt word salt) nl = false) ->
    exists b t',
      main crypt t = Return (b, t')
      /\ map fst (passwords b)
         = ["mysql_root"; "postgres"; "adminer"; "laravel_db"; "app_key";
            "jwt_secret"; "backup_key"]
      /\ (exists adminer salt,
             getitem (passwords b) "adminer" = Return adminer
             /\ adminer_hash b = crypt adminer salt)
      /\ fields "vault_adminer_password_hash" (vault_content b)
         = [adminer_hash b]
      /\ (exists laravel_db,
             getitem (passwords b) "laravel_db" = Return laravel_db
             /\ fields "vault_laravel_db_password" (vault_content b)
                = [laravel_db]
             /\ fields "password" (vault_content b) = [laravel_db])
      /\ fields "vault_adminer_user" (vault_content b) = ["dbadmin"]
      /\ fields "name" (vault_content b) = ["laravel_user"]
      /\ fields "privileges" (vault_content b)
         = ["SELECT,INSERT,UPDATE,DELETE,CREATE,ALTER,INDEX,DROP"]
      /\ (exists token,
             getitem (passwords b) "app_key" = Return ("base64:" ++ token)
             /\ fields "vault_app_key" (vault_content b)
                = ["base64:" ++ token]).
Proof.
  intros crypt t Hcrypt.
  destruct (generate_password_returns 20 (PyStr "high") t)
    as (p1 & t1 & E1 & _ & C1).
  destruct (generate_password_returns 20 (PyStr "high") t1)
    as (p2 & t2 & E2 & _ & C2).
  destruct (generate_password_returns 16 (PyStr "medium") t2)
    as (p3 & t3 & E3 & _ & C3).
  destruct (generate_password_returns 16 (PyStr "medium") t3)
    as (p4 & t4 & E4 & _ & C4).
  destruct (token_urlsafe_returns 32 t4) as (k5 & t5 & E5 & C5).
  destruct (token_urlsafe_returns 64 t5) as (k6 & t6 & E6 & C6).
  destruct (token_urlsafe_returns 32 t6) as (k7 & t7 & E7 & C7).
  destruct (hash_password_returns crypt p3 t7) as (salt & t8 & E8).
  apply forallb_within in C1, C2, C3, C4.
  assert (forall set s, contains set nl = false -> within set s ->
                        contains s nl = false) as Hfree
    by (intros set s; apply within_free).
  apply Hfree in C1, C2, C3, C4, C5, C6, C7; try reflexivity.
  clear Hfree.
  unfold main, GeneratePasswords.bind, lift.
  rewrite E1; cbv beta iota zeta. rewrite E2; cbv beta iota zeta.
  rewrite E3; cbv beta iota zeta. rewrite E4; cbv beta iota zeta.
  rewrite E5; cbv beta iota zeta. rewrite E6; cbv beta iota zeta.
  rewrite E7; cbv beta iota zeta.
  cbn [getitem setitem String.eqb Ascii.eqb Bool.eqb andb].
  rewrite E8; cbv beta iota zeta.
  eexists; eexists. split; [reflexivity | ].
  cbn [passwords adminer_hash vault_content].
  match goal with
  | |- context [unlines ?ls] => set (lines := ls)
  end.
  assert (split_lines (unlines lines) = (lines ++ [EmptyString])%list)
    as Hsplit.
  { apply split_lines_unlines. subst lines.
    repeat (apply Forall_cons;
            [first [reflexivity
                   | apply entry_free_of_nl;
                     first [reflexivity | assumption | apply Hcrypt]
                   | idtac]
            | ]).
    apply Forall_nil. }
  unfold fields. rewrite Hsplit. subst lines.
  split; [reflexivity | ].
  split; [exists p3, salt; split; reflexivity | ].
  split.
  { cbn. change (String "034"%char EmptyString) with (str1 dquote).
    now rewrite unquote_tail_quoted. }
  split.
  { exists p4. split; [reflexivity | ].
    split; cbn; change (String "034"%char EmptyString) with (str1 dquote);
      now rewrite unquote_tail_quoted. }
  do 3 (split; [reflexivity | ]).
  exists k5. split; [reflexivity | ].
  cbn -[unquote_tail].
  change (String "034"%char EmptyString) with (str1 dquote).
  change (String "b" (String "a" (String "s" (String "e" (String "6"
           (String "4" (String ":" (k5 ++ str1 dquote))))))))
    with (("base64:" ++ k5) ++ str1 dquote).
  now rewrite unquote_tail_quoted.
Qed.

Lemma main_builds_consistent_bundle_sample :
  (forall word salt, contains (sample_crypt word salt) nl = false)
  /\ exists b t',
       main sample_crypt sample_source = Return (b, t')
       /\ List.length (passwords b) = 7%nat
       /\ fields "password" (vault_content b)
          = fields "vault_laravel_db_password" (vault_content b).
Proof.
  split; [exact sample_crypt_free_of_nl | ].
  destruct (main_builds_consistent_bundle sample_crypt sample_source
              sample_crypt_free_of_nl)
    as (b & t' & Hrun & Hkeys & _ & _ & (pw & _ & Hvault & Huser) & _).
  exists b, t'. split; [exact Hrun | ]. split.
  - rewrite <- (length_map fst), Hkeys. reflexivity.
  - now rewrite Hvault, Huser.
Defined.

(** * Further properties of the rules *)

(** ** More on patterns *)

Section MorePatterns.
Implicit Types (r : regex) (s rest : string) (c : ascii).

Lemma matches_Chr c s rest :
  matches (Chr c) s rest <-> s = String c EmptyString.
Proof.
  unfold Chr. rewrite matches_Class. split.
  - intros (d & -> & H). apply Ascii.eqb_eq in H. now subst.
  - intros ->. exists c. split; [reflexivity | apply Ascii.eqb_refl].
Qed.

Lemma matches_Star_Class p s rest :
  matches (Star (Class p)) s rest <-> all_chars p s = true.
Proof.
  split.
  - intros H. remember (Star (Class p)) as r eqn:Er.
    induction H; try discriminate; [reflexivity | ].
    injection Er as ->. apply matches_Class in H as (c & -> & Hc).
    cbn. rewrite Hc. now apply IHmatches2.
  - revert rest. induction s as [ | c s IH]; intros rest H; [constructor | ].
    cbn in H. apply andb_true_iff in H as [Hc Hs].
    change (String c s) with (String c EmptyString ++ s).
    constructor; [now constructor | now apply IH].
Qed.

Lemma matches_Plus_Class p s rest :
  matches (Plus (Class p)) s rest
  <-> s <> EmptyString /\ all_chars p s = true.
Proof.
  unfold Plus. rewrite matches_Cat. split.
  - intros (s1 & s2 & -> & H1 & H2).
    apply matches_Class in H1 as (c & -> & Hc).
    apply matches_Star_Class in H2.
    split; [discriminate | cbn; now rewrite Hc].
  - intros [Hne H]. destruct s as [ | c s]; [congruence | ].
    cbn in H. apply andb_true_iff in H as [Hc Hs].
    exists (String c EmptyString), s. split; [reflexivity | ].
    split; [now constructor | now apply matches_Star_Class].
Qed.

(** An anchored pattern [^r$]: [r] matches the subject, or the subject
    without its final line feed. *)
Lemma re_match_anchored r s :
  well_formed r = true ->
  (re_match (Cat Bol (Cat r Eol)) s = true <->
   matches r s EmptyString
   \/ exists s', s = s' ++ str1 nl /\ matches r s' (str1 nl)).
Proof.
  intros Hwf. unfold re_match. rewrite match_at_Bol.
  rewrite (match_at_correct s true (Cat r Eol))
    by (cbn [well_formed]; now rewrite Hwf).
  split.
  - intros (s1 & s2 & -> & H).
    apply matches_Cat in H as (a & e & -> & Ha & He).
    apply matches_Eol in He as [-> He].
    rewrite append_nil_r in *. cbn [append] in Ha.
    apply at_eol_cases in He as [-> | ->].
    + left. now rewrite append_nil_r.
    + right. eauto.
  - intros [H | (s' & -> & H)].
    + exists s, EmptyString. split; [now rewrite append_nil_r | ].
      apply matches_Cat. exists s, EmptyString.
      split; [now rewrite append_nil_r | ].
      split; [exact H | now apply matches_Eol].
    + exists s', (str1 nl). split; [reflexivity | ].
      apply matches_Cat. exists s', EmptyString.
      split; [now rewrite append_nil_r | ].
      split; [exact H | now apply matches_Eol].
Qed.

End MorePatterns.

Lemma length_app_nl (s : string) :
  String.length (s ++ str1 nl) = S (String.length s).
Proof.
  apply length_snoc.
Qed.

Lemma re_match_database_name (s : string) :
  re_match database_name_pattern s = true <->
  database_name_ok s = true
  \/ exists s', s = s' ++ str1 nl /\ database_name_ok s' = true.
Proof.
  assert (forall s rest,
            matches (Plus (Class (fun c => is_alnum c || Ascii.eqb c "_")))
              s rest
            <-> database_name_ok s = true) as Hname.
  { intros s0 rest. rewrite matches_Plus_Class. unfold database_name_ok.
    fold word_char. rewrite andb_true_iff, Nat.leb_le.
    destruct s0; cbn; intuition (try congruence; try lia). }
  unfold database_name_pattern. cbn [Seq].
  rewrite re_match_anchored by reflexivity. rewrite Hname.
  split; intros [H | (s' & E & H)]; auto; right; exists s';
    (split; [exact E | ]); now apply (Hname s' (str1 nl)).
Qed.

(** X5. The database name rule accepts the strings of 1 to 64 characters made
    of letters, digits and underscores, and also such a name followed by
    one line feed when the whole is at most 64 long; nothing else. *)
Lemma validate_database_name_accepts (v : value) :
  validate_database_name v = Return true <->
  exists s, v = PyStr s
    /\ (String.length s <= 64)%nat
    /\ (database_name_ok s = true
        \/ exists s', s = s' ++ str1 nl /\ database_name_ok s' = true).
Proof.
  pose proof re_match_database_name as Hmatch.
  split.
  - destruct v as [ | | | | s | | ]; try discriminate.
    unfold validate_database_name.
    destruct (String.length s =? 0)%nat eqn:E0; [discriminate | ].
    destruct (64 <? String.length s)%nat eqn:E64; [discriminate | ].
    intros H. exists s. split; [reflexivity | ].
    apply Nat.ltb_ge in E64. split; [exact E64 | ].
    apply Hmatch. congruence.
  - intros (s & -> & Hlen & H). unfold validate_database_name.
    assert (String.length s <> 0)%nat as Hne.
    { destruct H as [H | (s' & -> & _)].
      - unfold database_name_ok in H. apply andb_true_iff in H as [H _].
        apply Nat.leb_le in H. lia.
      - rewrite length_app_nl. lia. }
    replace (String.length s =? 0)%nat with false
      by (symmetry; now apply Nat.eqb_neq).
    replace (64 <? String.length s)%nat with false
      by (symmetry; apply Nat.ltb_ge; lia).
    f_equal. now apply Hmatch.
Qed.

(** ** The password rule *)




(** ** Patterns anchored at both ends *)

Section Whole.
Implicit Types (r : regex) (s rest : string) (c : ascii).

Lemma matches_Cat_Eol r s rest :
  matches (Cat r Eol) s rest <-> matches r s rest /\ at_eol rest = true.
Proof.
  rewrite matches_Cat. split.
  - intros (s1 & e & -> & H & He). apply matches_Eol in He as [-> He].
    rewrite append_nil_r. cbn [append] in H. auto.
  - intros [H He]. exists s, EmptyString.
    split; [now rewrite append_nil_r | ].
    split; [exact H | now apply matches_Eol].
Qed.

Lemma re_match_whole (body : regex) (ok : string -> Prop) :
  well_formed body = true ->
  (forall s rest, matches body s rest <-> ok s /\ at_eol rest = true) ->
  forall s,
    re_match (Cat Bol body) s = true <->
    ok s \/ exists s', s = s' ++ str1 nl /\ ok s'.
Proof.
  intros Hwf Hbody s. unfold re_match.
  rewrite match_at_Bol, (match_at_correct s true body Hwf). split.
  - intros (s1 & s2 & -> & H). apply Hbody in H as [H He].
    apply at_eol_cases in He as [-> | ->].
    + left. now rewrite append_nil_r.
    + right. eauto.
  - intros [H | (s' & -> & H)].
    + exists s, EmptyString. split; [now rewrite append_nil_r | ].
      apply Hbody. auto.
    + exists s', (str1 nl). split; [reflexivity | ].
      apply Hbody. auto.
Qed.

Lemma matches_AtLeast_Class n p s rest :
  matches (AtLeast n (Class p)) s rest
  <-> (n <= String.length s)%nat /\ all_chars p s = true.
Proof.
  revert s. induction n as [ | n IH]; intros s; cbn [AtLeast].
  - rewrite matches_Star_Class. intuition lia.
  - rewrite matches_Cat. split.
    + intros (s1 & s2 & -> & H1 & H2).
      apply matches_Class in H1 as (c & -> & Hc).
      apply IH in H2 as [Hlen Hall]. cbn. rewrite Hc. split; [lia | auto].
    + intros [Hlen Hall]. destruct s as [ | c s]; [cbn in Hlen; lia | ].
      cbn in Hlen, Hall. apply andb_true_iff in Hall as [Hc Hall].
      exists (String c EmptyString), s. split; [reflexivity | ].
      split; [now constructor | ]. apply IH. split; [lia | assumption].
Qed.

End Whole.

(** X7. The email rule accepts exactly the strings [local@domain.tld], and
    those followed by one line feed. *)
Lemma validate_email_accepts (v : value) :
  validate_email v = Return true <->
  exists s, v = PyStr s
    /\ (email_ok s \/ exists s', s = s' ++ str1 nl /\ email_ok s').
Proof.
  assert (forall s,
            re_match email_pattern s = true <->
            email_ok s \/ exists s', s = s' ++ str1 nl /\ email_ok s')
    as Hmatch.
  { unfold email_pattern. cbn [Seq].
    apply re_match_whole; [reflexivity | ].
    intros s rest. fold local_char domain_char letter. split.
    - intros H.
      apply matches_Cat in H as (local & s1 & -> & Hlocal & H).
      apply matches_Plus_Class in Hlocal as [Hl1 Hl2].
      apply matches_Cat in H as (at_ & s2 & -> & Hat & H).
      apply matches_Chr in Hat as ->.
      apply matches_Cat in H as (domain & s3 & -> & Hdomain & H).
      apply matches_Plus_Class in Hdomain as [Hd1 Hd2].
      apply matches_Cat in H as (dot & s4 & -> & Hdot & H).
      apply matches_Chr in Hdot as ->.
      apply matches_Cat_Eol in H as [Htld He].
      apply matches_AtLeast_Class in Htld as [Ht1 Ht2].
      split; [ | exact He].
      exists local, domain, s4. repeat split; assumption.
    - intros [(local & domain & tld & -> & Hl1 & Hl2 & Hd1 & Hd2 & Ht1 & Ht2)
                He].
      apply matches_Cat. exists local, ("@" ++ domain ++ "." ++ tld).
      split; [reflexivity | ].
      split; [now apply matches_Plus_Class | ].
      apply matches_Cat. exists "@", (domain ++ "." ++ tld).
      split; [reflexivity | ]. split; [now apply matches_Chr | ].
      apply matches_Cat. exists domain, ("." ++ tld).
      split; [reflexivity | ].
      split; [now apply matches_Plus_Class | ].
      apply matches_Cat. exists ".", tld.
      split; [reflexivity | ]. split; [now apply matches_Chr | ].
      apply matches_Cat_Eol. split; [ | exact He].
      now apply matches_AtLeast_Class. }
  split.
  - destruct v as [ | | | | s | | ]; try discriminate.
    unfold validate_email. intros H. exists s. split; [reflexivity | ].
    apply Hmatch. congruence.
  - intros (s & -> & H). unfold validate_email. f_equal. now apply Hmatch.
Qed.

(** ** The repository URL rule *)

Section Git.
Implicit Types (r : regex) (s rest : string) (c : ascii).

Lemma matches_Lit (l s rest : string) : matches (Lit l) s rest <-> s = l.
Proof.
  revert s. induction l as [ | c l IH]; intros s; cbn [Lit].
  - apply matches_Eps.
  - rewrite matches_Cat. split.
    + intros (s1 & s2 & -> & H1 & H2).
      apply matches_Chr in H1 as ->. apply IH in H2 as ->. reflexivity.
    + intros ->. exists (String c EmptyString), l.
      split; [reflexivity | ].
      split; [now apply matches_Chr | now apply IH].
Qed.

Lemma matches_Opt_Chr c s rest :
  matches (Opt (Chr c)) s rest <-> s = EmptyString \/ s = String c EmptyString.
Proof.
  unfold Opt. rewrite matches_Alt, matches_Chr, matches_Eps. tauto.
Qed.

(** [https?] followed by something. *)
Lemma matches_scheme r s rest :
  matches (Cat (Lit "http") (Cat (Opt (Chr "s")) r)) s rest
  <-> exists sch s', s = sch ++ s' /\ scheme sch /\ matches r s' rest.
Proof.
  rewrite matches_Cat. split.
  - intros (s1 & s2 & -> & H1 & H2). apply matches_Lit in H1 as ->.
    apply matches_Cat in H2 as (o & s' & -> & Ho & H).
    apply matches_Opt_Chr in Ho as [-> | ->].
    + exists "http", s'. split; [reflexivity | ]. split; [now left | exact H].
    + exists "https", s'. split; [reflexivity | ]. split; [now right | exact H].
  - intros (sch & s' & -> & [-> | ->] & H).
    + exists "http", s'. split; [reflexivity | ].
      split; [now apply matches_Lit | ].
      apply matches_Cat. exists EmptyString, s'. split; [reflexivity | ].
      split; [apply matches_Opt_Chr; now left | exact H].
    + exists "http", ("s" ++ s'). split; [reflexivity | ].
      split; [now apply matches_Lit | ].
      apply matches_Cat. exists "s", s'. split; [reflexivity | ].
      split; [apply matches_Opt_Chr; now right | exact H].
Qed.

Lemma matches_Cat_Lit (l : string) r s rest :
  matches (Cat (Lit l) r) s rest
  <-> exists s', s = l ++ s' /\ matches r s' rest.
Proof.
  rewrite matches_Cat. split.
  - intros (s1 & s2 & -> & H1 & H2). apply matches_Lit in H1 as ->. eauto.
  - intros (s' & -> & H). exists l, s'. split; [reflexivity | ].
    split; [now apply matches_Lit | exact H].
Qed.

Lemma matches_Cat_Class p r s rest :
  matches (Cat (Class p) r) s rest
  <-> exists c s', s = String c s' /\ p c = true /\ matches r s' rest.
Proof.
  rewrite matches_Cat. split.
  - intros (s1 & s2 & -> & H1 & H2).
    apply matches_Class in H1 as (c & -> & Hc). exists c, s2. auto.
  - intros (c & s' & -> & Hc & H). exists (String c EmptyString), s'.
    split; [reflexivity | ]. split; [now constructor | exact H].
Qed.

Lemma matches_Cat_Chr c r s rest :
  matches (Cat (Chr c) r) s rest
  <-> exists s', s = String c s' /\ matches r s' rest.
Proof.
  unfold Chr. rewrite matches_Cat_Class. split.
  - intros (d & s' & -> & Hd & H). apply Ascii.eqb_eq in Hd. subst d. eauto.
  - intros (s' & -> & H). exists c, s'.
    split; [reflexivity | ]. split; [apply Ascii.eqb_refl | exact H].
Qed.

Lemma matches_Cat_Star_Class p r s rest :
  matches (Cat (Star (Class p)) r) s rest
  <-> exists w s', s = w ++ s' /\ all_chars p w = true /\ matches r s' rest.
Proof.
  rewrite matches_Cat. split.
  - intros (s1 & s2 & -> & H1 & H2). apply matches_Star_Class in H1.
    exists s1, s2. auto.
  - intros (w & s' & -> & Hw & H). exists w, s'. split; [reflexivity | ].
    split; [now apply matches_Star_Class | exact H].
Qed.

Lemma matches_Cat_Plus_Class p r s rest :
  matches (Cat (Plus (Class p)) r) s rest
  <-> exists w s',
        s = w ++ s' /\ w <> EmptyString /\ all_chars p w = true
        /\ matches r s' rest.
Proof.
  rewrite matches_Cat. split.
  - intros (s1 & s2 & -> & H1 & H2).
    apply matches_Plus_Class in H1 as [Hne Hw]. exists s1, s2. auto.
  - intros (w & s' & -> & Hne & Hw & H). exists w, s'.
    split; [reflexivity | ].
    split; [now apply matches_Plus_Class | exact H].
Qed.

Lemma matches_git_over_http s rest :
  matches (Seq [Lit "http"; Opt (Chr "s"); Lit "://"; host_start; Dot;
                Star non_space; Lit ".git"; Eol]) s rest
  <-> git_over_http s /\ at_eol rest = true.
Proof.
  cbn [Seq]. unfold host_start, Dot, non_space.
  rewrite matches_scheme. split.
  - intros (sch & s1 & -> & Hsch & H).
    apply matches_Cat_Lit in H as (s2 & -> & H).
    apply matches_Cat_Class in H as (h & s3 & -> & Hh & H).
    apply matches_Cat_Class in H as (d & s4 & -> & Hd & H).
    apply matches_Cat_Star_Class in H as (w & s5 & -> & Hw & H).
    apply matches_Cat_Eol in H as [H He]. apply matches_Lit in H as ->.
    split; [ | exact He]. exists sch, h, d, w. repeat split; assumption.
  - intros [(sch & h & d & w & -> & Hsch & Hh & Hd & Hw) He].
    exists sch, ("://" ++ String h (String d (w ++ ".git"))).
    split; [reflexivity | ]. split; [exact Hsch | ].
    apply matches_Cat_Lit. eexists. split; [reflexivity | ].
    apply matches_Cat_Class. exists h. eexists. split; [reflexivity | ].
    split; [exact Hh | ].
    apply matches_Cat_Class. exists d. eexists. split; [reflexivity | ].
    split; [exact Hd | ].
    apply matches_Cat_Star_Class. exists w, ".git". split; [reflexivity | ].
    split; [exact Hw | ].
    apply matches_Cat_Eol. split; [now apply matches_Lit | exact He].
Qed.

Lemma matches_git_over_ssh s rest :
  matches (Seq [Lit "git@"; host_start; Dot; Star non_space; Chr ":";
                Star non_space; Lit ".git"; Eol]) s rest
  <-> git_over_ssh s /\ at_eol rest = true.
Proof.
  cbn [Seq]. unfold host_start, Dot, non_space.
  rewrite matches_Cat_Lit. split.
  - intros (s1 & -> & H).
    apply matches_Cat_Class in H as (h & s3 & -> & Hh & H).
    apply matches_Cat_Class in H as (d & s4 & -> & Hd & H).
    apply matches_Cat_Star_Class in H as (w & s5 & -> & Hw & H).
    apply matches_Cat_Chr in H as (s6 & -> & H).
    apply matches_Cat_Star_Class in H as (path & s7 & -> & Hp & H).
    apply matches_Cat_Eol in H as [H He]. apply matches_Lit in H as ->.
    split; [ | exact He]. exists h, d, w, path. repeat split; assumption.
  - intros [(h & d & w & path & -> & Hh & Hd & Hw & Hp) He].
    eexists. split; [reflexivity | ].
    apply matches_Cat_Class. exists h. eexists. split; [reflexivity | ].
    split; [exact Hh | ].
    apply matches_Cat_Class. exists d. eexists. split; [reflexivity | ].
    split; [exact Hd | ].
    apply matches_Cat_Star_Class. exists w. eexists.
    split; [reflexivity | ]. split; [exact Hw | ].
    apply matches_Cat_Chr. eexists. split; [reflexivity | ].
    apply matches_Cat_Star_Class. exists path, ".git".
    split; [reflexivity | ]. split; [exact Hp | ].
    apply matches_Cat_Eol. split; [now apply matches_Lit | exact He].
Qed.

Lemma matches_hosted (host s rest : string) :
  matches (Seq [Lit "http"; Opt (Chr "s"); Lit ("://" ++ host ++ "/");
                Plus non_slash; Chr "/"; Plus non_slash; Opt (Chr "/");
                Eol]) s rest
  <-> hosted host s /\ at_eol rest = true.
Proof.
  cbn [Seq]. unfold non_slash. fold not_slash.
  rewrite matches_scheme. split.
  - intros (sch & s1 & -> & Hsch & H).
    apply matches_Cat_Lit in H as (s2 & -> & H).
    apply matches_Cat_Plus_Class in H as (owner & s3 & -> & Ho1 & Ho2 & H).
    apply matches_Cat_Chr in H as (s4 & -> & H).
    apply matches_Cat_Plus_Class in H as (repo & s5 & -> & Hr1 & Hr2 & H).
    apply matches_Cat_Eol in H as [H He].
    apply matches_Opt_Chr in H.
    split; [ | exact He]. exists sch, owner, repo, s5.
    rewrite !append_assoc. repeat split; assumption.
  - intros [(sch & owner & repo & slash & -> & Hsch & Ho1 & Ho2 & Hr1 & Hr2
             & Hslash) He].
    exists sch. eexists. split; [reflexivity | ]. split; [exact Hsch | ].
    apply matches_Cat_Lit. eexists.
    split; [now rewrite !append_assoc | ].
    apply matches_Cat_Plus_Class. exists owner. eexists.
    split; [reflexivity | ]. split; [exact Ho1 | ]. split; [exact Ho2 | ].
    apply matches_Cat_Chr. eexists. split; [reflexivity | ].
    apply matches_Cat_Plus_Class. exists repo, slash.
    split; [reflexivity | ]. split; [exact Hr1 | ]. split; [exact Hr2 | ].
    apply matches_Cat_Eol. split; [now apply matches_Opt_Chr | exact He].
Qed.

End Git.

(** X8. The repository URL rule accepts exactly the strings of one of the
    four shapes, and those followed by one line feed. *)
Lemma validate_git_url_accepts (v : value) :
  validate_git_url v = Return true <->
  exists s, v = PyStr s
    /\ (git_url_ok s \/ exists s', s = s' ++ str1 nl /\ git_url_ok s').
Proof.
  assert (forall s,
            existsb (fun pattern => re_match pattern s) git_url_patterns
            = true <->
            git_url_ok s \/ exists s', s = s' ++ str1 nl /\ git_url_ok s')
    as Hmatch.
  { intros s. unfold git_url_patterns. cbn [existsb].
    rewrite !orb_true_iff.
    rewrite (re_match_whole
               (Seq [Lit "http"; Opt (Chr "s"); Lit "://"; host_start; Dot;
                     Star non_space; Lit ".git"; Eol])
               git_over_http eq_refl matches_git_over_http).
    rewrite (re_match_whole
               (Seq [Lit "git@"; host_start; Dot; Star non_space; Chr ":";
                     Star non_space; Lit ".git"; Eol])
               git_over_ssh eq_refl matches_git_over_ssh).
    rewrite (re_match_whole
               (Seq [Lit "http"; Opt (Chr "s"); Lit "://github.com/";
                     Plus non_slash; Chr "/"; Plus non_slash; Opt (Chr "/");
                     Eol])
               (hosted "github.com") eq_refl (matches_hosted "github.com")).
    rewrite (re_match_whole
               (Seq [Lit "http"; Opt (Chr "s"); Lit "://gitlab.com/";
                     Plus non_slash; Chr "/"; Plus non_slash; Opt (Chr "/");
                     Eol])
               (hosted "gitlab.com") eq_refl (matches_hosted "gitlab.com")).
    unfold git_url_ok. split.
    - intros [ [H | (s' & E & H)] | [ [H | (s' & E & H)]
               | [ [H | (s' & E & H)] | [ [H | (s' & E & H)] | H] ] ] ];
        try discriminate H; eauto 7.
    - intros [ [H | [H | [H | H] ] ] | (s' & E & [H | [H | [H | H] ] ]) ];
        eauto 9. }
  split.
  - destruct v as [ | | | | s | | ]; try discriminate.
    unfold validate_git_url.
    destruct (String.length s =? 0)%nat; [discriminate | ].
    intros H. exists s. split; [reflexivity | ].
    apply Hmatch. congruence.
  - intros (s & -> & H). unfold validate_git_url.
    apply Hmatch in H.
    destruct s as [ | c s]; [discriminate H | ].
    cbn [String.length Nat.eqb]. now f_equal.
Qed.

(** ** The sanitizer on strings *)

Section Sanitizer.

Lemma lstrip_starts (s : string) : starts_with_space (lstrip s) = false.
Proof.
  induction s as [ | c s IH]; [reflexivity | ].
  cbn [lstrip]. destruct (is_space c) eqn:Hc; [exact IH | ].
  cbn. exact Hc.
Qed.

Lemma rstrip_starts (s : string) :
  starts_with_space s = false -> starts_with_space (rstrip s) = false.
Proof.
  destruct s as [ | c s]; [reflexivity | ].
  cbn [starts_with_space rstrip]. intros Hc.
  destruct (rstrip s); [rewrite Hc | ]; cbn; exact Hc.
Qed.

Lemma rstrip_ends (s : string) : ends_with_space (rstrip s) = false.
Proof.
  induction s as [ | c s IH]; [reflexivity | ].
  cbn [rstrip]. destruct (rstrip s) as [ | d r].
  - destruct (is_space c) eqn:Hc; [reflexivity | cbn; exact Hc].
  - exact IH.
Qed.

Lemma rstrip_fixed (s : string) : ends_with_space s = false -> rstrip s = s.
Proof.
  induction s as [ | c s IH]; [reflexivity | ].
  destruct s as [ | d s].
  - cbn. now intros ->.
  - intros H. change (ends_with_space (String d s) = false) in H.
    cbn [rstrip] in *. rewrite (IH H). reflexivity.
Qed.

Lemma lstrip_fixed (s : string) : starts_with_space s = false -> lstrip s = s.
Proof.
  destruct s as [ | c s]; [reflexivity | ]. cbn. now intros ->.
Qed.

Lemma strip_trimmed (s : string) : trimmed (strip s) = true.
Proof.
  unfold trimmed, strip.
  now rewrite (rstrip_starts _ (lstrip_starts s)), rstrip_ends.
Qed.

Lemma strip_fixed (s : string) : trimmed s = true -> strip s = s.
Proof.
  unfold trimmed, strip. intros H. apply andb_true_iff in H as [H1 H2].
  apply negb_true_iff in H1, H2.
  now rewrite (lstrip_fixed _ H1), (rstrip_fixed _ H2).
Qed.

Lemma all_chars_lstrip (p : ascii -> bool) (s : string) :
  all_chars p s = true -> all_chars p (lstrip s) = true.
Proof.
  induction s as [ | c s IH]; [reflexivity | ].
  cbn [lstrip]. destruct (is_space c); [ | auto].
  cbn. intros H. apply andb_true_iff in H as [_ H]. auto.
Qed.

Lemma all_chars_rstrip (p : ascii -> bool) (s : string) :
  all_chars p s = true -> all_chars p (rstrip s) = true.
Proof.
  induction s as [ | c s IH]; [reflexivity | ].
  cbn [rstrip all_chars]. intros H. apply andb_true_iff in H as [Hc Hs].
  specialize (IH Hs). destruct (rstrip s) as [ | d r].
  - destruct (is_space c); [reflexivity | cbn; now rewrite Hc].
  - cbn [all_chars] in *. now rewrite Hc, IH.
Qed.

Lemma without_dangerous_safe (s : string) :
  all_chars safe_char (without_dangerous s) = true.
Proof.
  induction s as [ | c s IH]; [reflexivity | ].
  cbn [without_dangerous].
  destruct (one_of "`$|&;(){}<>" c) eqn:Hc; [exact IH | ].
  cbn [all_chars]. unfold safe_char at 1. now rewrite Hc, IH.
Qed.

Lemma without_dangerous_fixed (s : string) :
  all_chars safe_char s = true -> without_dangerous s = s.
Proof.
  induction s as [ | c s IH]; [reflexivity | ].
  cbn [all_chars without_dangerous]. intros H.
  apply andb_true_iff in H as [Hc Hs]. unfold safe_char in Hc.
  apply negb_true_iff in Hc. now rewrite Hc, (IH Hs).
Qed.

Lemma all_chars_contains (p : ascii -> bool) (s : string) (c : ascii) :
  all_chars p s = true -> p c = false -> contains s c = false.
Proof.
  induction s as [ | d s IH]; [reflexivity | ].
  cbn [all_chars contains]. intros H Hc.
  apply andb_true_iff in H as [Hd Hs]. rewrite (IH Hs Hc), orb_false_r.
  destruct (Ascii.eqb d c) eqn:E; [ | reflexivity].
  apply Ascii.eqb_eq in E. congruence.
Qed.

Lemma dangerous_not_safe (c : ascii) :
  In c dangerous_chars -> safe_char c = false.
Proof.
  unfold dangerous_chars. cbn [In].
  intros [<- | [<- | [<- | [<- | [<- | [<- | [<- | [<- | [<- | [<- | [<- | []
    ] ] ] ] ] ] ] ] ] ] ]; reflexivity.
Qed.

End Sanitizer.

(** X9. On a string the sanitizer returns a string free of the dangerous
    characters and of white space at either end, and sanitizing that
    result again changes nothing. *)
Theorem sanitize_input_cleans_strings :
  forall (float_repr : spec_float -> string) (s : string),
  exists out,
    sanitize_input float_repr (PyStr s) = Return out
    /\ (forall c, In c dangerous_chars -> contains out c = false)
    /\ trimmed out = true
    /\ sanitize_input float_repr (PyStr out) = Return out.
Proof.
  intros float_repr s. exists (sanitized s).
  assert (all_chars safe_char (sanitized s) = true) as Hsafe.
  { unfold sanitized, strip.
    apply all_chars_rstrip, all_chars_lstrip, without_dangerous_safe. }
  split; [apply sanitize_input_str | ].
  split.
  { intros c Hc.
    exact (all_chars_contains _ _ _ Hsafe (dangerous_not_safe _ Hc)). }
  split; [apply strip_trimmed | ].
  rewrite sanitize_input_str. f_equal. unfold sanitized at 1.
  rewrite (without_dangerous_fixed _ Hsafe).
  apply strip_fixed, strip_trimmed.
Qed.

(** * Further properties of the generator *)

Section Tokens.

Local Open Scope nat_scope.

Lemma rstrip_char_cons (c d : ascii) (r : string) :
  Ascii.eqb d c = false ->
  rstrip_char c (String d r) = String d (rstrip_char c r).
Proof.
  intros H. cbn [rstrip_char]. rewrite H. now destruct (rstrip_char c r).
Qed.

Lemma b64_char_url_safe (n : nat) :
  n < 64 ->
  url_safe (b64_char n) = true /\ Ascii.eqb (b64_char n) "=" = false.
Proof.
  intros H.
  do 64 (destruct n as [ | n]; [split; reflexivity | ]).
  lia.
Qed.

Lemma sextets (a b c : nat) :
  a < 256 -> b < 256 -> c < 256 ->
  a / 4 < 64 /\ a mod 4 * 16 + b / 16 < 64
  /\ b mod 16 * 4 + c / 64 < 64 /\ c mod 64 < 64
  /\ a mod 4 * 16 < 64 /\ b mod 16 * 4 < 64.
Proof.
  intros Ha Hb Hc.
  assert (a / 4 < 64) by (apply Nat.Div0.div_lt_upper_bound; lia).
  assert (b / 16 < 16) by (apply Nat.Div0.div_lt_upper_bound; lia).
  assert (c / 64 < 4) by (apply Nat.Div0.div_lt_upper_bound; lia).
  assert (a mod 4 < 4) by (apply Nat.mod_upper_bound; lia).
  assert (b mod 16 < 16) by (apply Nat.mod_upper_bound; lia).
  assert (c mod 64 < 64) by (apply Nat.mod_upper_bound; lia).
  lia.
Qed.

Lemma encoded_length (n : nat) : (4 * (3 + n) + 2) / 3 = 4 + (4 * n + 2) / 3.
Proof.
  replace (4 * (3 + n) + 2) with (4 * n + 2 + 4 * 3) by lia.
  rewrite Nat.div_add by lia. lia.
Qed.

(** Encoded and with the padding taken off, [n] bytes are the smallest
    whole number of characters holding [8 n] bits, six to a character. *)
Lemma urlsafe_b64encode_stripped (bs : list nat) :
  Forall (fun b => b < 256) bs ->
  String.length (rstrip_char "=" (urlsafe_b64encode bs))
  = (4 * List.length bs + 2) / 3
  /\ all_chars url_safe (rstrip_char "=" (urlsafe_b64encode bs)) = true.
Proof.
  assert (forall n bs, List.length bs < n ->
            Forall (fun b => b < 256) bs ->
            String.length (rstrip_char "=" (urlsafe_b64encode bs))
            = (4 * List.length bs + 2) / 3
            /\ all_chars url_safe (rstrip_char "=" (urlsafe_b64encode bs))
               = true) as H.
  { clear bs. induction n as [ | n IH]; intros bs Hlen Hbs; [lia | ].
    destruct bs as [ | a [ | b [ | c rest] ] ].
    - split; reflexivity.
    - inversion Hbs as [ | ? ? Ha _]; subst.
      destruct (sextets a 0 0 Ha ltac:(lia) ltac:(lia))
        as (H1 & _ & _ & _ & H2 & _).
      destruct (b64_char_url_safe _ H1) as [S1 E1].
      destruct (b64_char_url_safe _ H2) as [S2 E2].
      cbn [urlsafe_b64encode].
      rewrite !rstrip_char_cons by assumption.
      cbn [rstrip_char Ascii.eqb Bool.eqb String.length all_chars List.length].
      rewrite S1, S2. split; reflexivity.
    - inversion Hbs as [ | ? ? Ha Hbs']; subst.
      inversion Hbs' as [ | ? ? Hb _]; subst.
      destruct (sextets a b 0 Ha Hb ltac:(lia))
        as (H1 & H2 & _ & _ & _ & H3).
      destruct (b64_char_url_safe _ H1) as [S1 E1].
      destruct (b64_char_url_safe _ H2) as [S2 E2].
      destruct (b64_char_url_safe _ H3) as [S3 E3].
      cbn [urlsafe_b64encode].
      rewrite !rstrip_char_cons by assumption.
      cbn [rstrip_char Ascii.eqb Bool.eqb String.length all_chars List.length].
      rewrite S1, S2, S3. split; reflexivity.
    - inversion Hbs as [ | ? ? Ha Hbs']; subst.
      inversion Hbs' as [ | ? ? Hb Hbs'']; subst.
      inversion Hbs'' as [ | ? ? Hc Hrest]; subst.
      destruct (sextets a b c Ha Hb Hc) as (H1 & H2 & H3 & H4 & _ & _).
      destruct (b64_char_url_safe _ H1) as [S1 E1].
      destruct (b64_char_url_safe _ H2) as [S2 E2].
      destruct (b64_char_url_safe _ H3) as [S3 E3].
      destruct (b64_char_url_safe _ H4) as [S4 E4].
      destruct (IH rest ltac:(cbn in Hlen; lia) Hrest) as [IHlen IHsafe].
      cbn [urlsafe_b64encode].
      rewrite !rstrip_char_cons by assumption.
      cbn [String.length all_chars List.length].
      rewrite S1, S2, S3, S4, IHsafe, IHlen.
      split; [ | reflexivity].
      change (S (S (S (List.length rest)))) with (3 + List.length rest).
      rewrite encoded_length. reflexivity. }
  apply (H (S (List.length bs))). lia.
Qed.

End Tokens.

Section Secrets.

Local Open Scope gen_scope.

Lemma token_urlsafe_shape (nbytes : Z) (t : source) :
  exists token t',
    token_urlsafe nbytes t = Return (token, t')
    /\ String.length token = ((4 * Z.to_nat nbytes + 2) / 3)%nat
    /\ all_chars url_safe token = true.
Proof.
  unfold token_urlsafe, token_bytes.
  destruct (times_returns (r <- draw ;; ret (r mod 256)%nat)
              (fun b => (b < 256)%nat)
              ltac:(intros t0; eexists; eexists; split;
                    [reflexivity | apply Nat.mod_upper_bound; discriminate])
              (Z.to_nat nbytes) t)
    as (tok & t' & Htok & Hlen & Hbytes).
  exists (rstrip_char "=" (urlsafe_b64encode tok)), t'.
  rewrite (bind_Return _ _ _ _ _ Htok).
  split; [reflexivity | ].
  rewrite <- Hlen. now apply urlsafe_b64encode_stripped.
Qed.

Lemma all_chars_string_of_list (p : ascii -> bool) (l : list ascii) :
  all_chars p (string_of_list_ascii l) = forallb p l.
Proof.
  induction l as [ | c l IH]; cbn; [reflexivity | now rewrite IH].
Qed.

Lemma all_chars_list (p : ascii -> bool) (s : string) :
  all_chars p s = forallb p (list_ascii_of_string s).
Proof.
  induction s as [ | c s IH]; cbn; [reflexivity | now rewrite IH].
Qed.

Lemma saltchars_salt_char (c : ascii) :
  contains saltchars c = true -> salt_char c = true.
Proof.
  destruct c as [ [] [] [] [] [] [] [] [] ]; cbn; intros H;
    first [reflexivity | discriminate H].
Qed.

End Secrets.

(** X10. The salt generator returns 43 URL-safe characters: 32 random
    bytes in base 64, padding removed. *)
Theorem generate_salt_shape :
  forall t : source,
  exists salt t',
    generate_salt t = Return (salt, t')
    /\ String.length salt = 43%nat
    /\ all_chars url_safe salt = true.
Proof.
  intros t. exact (token_urlsafe_shape 32 t).
Qed.

(** X11. The hash is taken under a fresh SHA-512 salt: the marker [$6$]
    and sixteen characters from letters, digits, [.] and [/]. *)
Theorem hash_password_salt :
  forall (crypt : string -> string -> string) (password : string)
         (t : source),
  exists salt t',
    hash_password crypt password t
    = Return (crypt password ("$6$" ++ salt), t')
    /\ String.length salt = 16%nat
    /\ all_chars salt_char salt = true.
Proof.
  intros crypt password t. unfold hash_password, mksalt_sha512.
  destruct (times_returns (choice saltchars)
              (fun c => salt_char c = true)
              ltac:(intros t0;
                    destruct (choice_returns saltchars t0
                                ltac:(discriminate))
                      as (c & Hc & Pc);
                    exists c; eexists; split;
                    [exact Hc | now apply saltchars_salt_char])
              16%nat t)
    as (cs & t' & Hcs & Hlen & Hsalt).
  exists (string_of_list_ascii cs), t'.
  unfold GeneratePasswords.bind at 1.
  rewrite (bind_Return _ _ _ _ _ Hcs). cbn [ret].
  split; [reflexivity | ].
  split; [now rewrite length_string_of_list | ].
  rewrite all_chars_string_of_list. apply forallb_forall.
  now apply Forall_forall.
Qed.

Section MainRun.

Lemma drawn_from_password (length : Z) (complexity : value) (s : string) :
  String.length s = Z.to_nat length ->
  forallb (contains (characters_for complexity)) (list_ascii_of_string s)
  = true ->
  drawn_from (alphabet complexity) (Z.to_nat length) s.
Proof.
  intros Hlen Hchars. split; [exact Hlen | ].
  now rewrite all_chars_list, <- characters_for_alphabet.
Qed.

Lemma drawn_from_free (alphabet : string) (n : nat) (s : string) (c : ascii) :
  contains alphabet c = false -> drawn_from alphabet n s ->
  contains s c = false.
Proof.
  intros Hc [_ Hs]. exact (all_chars_contains _ _ _ Hs Hc).
Qed.

Lemma url_safe_token_free (n : nat) (s : string) (c : ascii) :
  url_safe c = false -> url_safe_token n s -> contains s c = false.
Proof.
  intros Hc [_ Hs]. exact (all_chars_contains _ _ _ Hs Hc).
Qed.

End MainRun.

(** Runs [main] on the source [t] up to the record it returns, naming the
    seven secrets [p1] .. [p4], [k5] .. [k7] and the salt. *)
Ltac run_main_steps crypt t :=
  let t1 := fresh "t1" in let t2 := fresh "t2" in let t3 := fresh "t3" in
  let t4 := fresh "t4" in let t5 := fresh "t5" in let t6 := fresh "t6" in
  let t7 := fresh "t7" in let t8 := fresh "t8" in
  let E1 := fresh "E" in let E2 := fresh "E" in let E3 := fresh "E" in
  let E4 := fresh "E" in let E5 := fresh "E" in let E6 := fresh "E" in
  let E7 := fresh "E" in let E8 := fresh "E" in
  destruct (generate_password_returns 20 (PyStr "high") t)
    as (p1 & t1 & E1 & L1 & C1);
  destruct (generate_password_returns 20 (PyStr "high") t1)
    as (p2 & t2 & E2 & L2 & C2);
  destruct (generate_password_returns 16 (PyStr "medium") t2)
    as (p3 & t3 & E3 & L3 & C3);
  destruct (generate_password_returns 16 (PyStr "medium") t3)
    as (p4 & t4 & E4 & L4 & C4);
  destruct (token_urlsafe_shape 32 t4) as (k5 & t5 & E5 & S5);
  destruct (token_urlsafe_shape 64 t5) as (k6 & t6 & E6 & S6);
  destruct (token_urlsafe_shape 32 t6) as (k7 & t7 & E7 & S7);
  destruct (hash_password_returns crypt p3 t7) as (salt & t8 & E8);
  pose proof (drawn_from_password _ _ _ L1 C1) as D1;
  pose proof (drawn_from_password _ _ _ L2 C2) as D2;
  pose proof (drawn_from_password _ _ _ L3 C3) as D3;
  pose proof (drawn_from_password _ _ _ L4 C4) as D4;
  clear L1 C1 L2 C2 L3 C3 L4 C4;
  unfold main, GeneratePasswords.bind, lift;
  rewrite E1; cbv beta iota zeta; rewrite E2; cbv beta iota zeta;
  rewrite E3; cbv beta iota zeta; rewrite E4; cbv beta iota zeta;
  rewrite E5; cbv beta iota zeta; rewrite E6; cbv beta iota zeta;
  rewrite E7; cbv beta iota zeta;
  cbn [getitem setitem String.eqb Ascii.eqb Bool.eqb andb];
  rewrite E8; cbv beta iota zeta.

Ltac run_main crypt t :=
  run_main_steps crypt t;
  eexists; eexists; split; [reflexivity | ];
  cbn [passwords adminer_hash vault_content].

(** X12. One run of [main] gives seven secrets of fixed lengths and
    alphabets:
    20 characters of letters, digits and symbols for the two database
    administrators, 16 letters and digits for adminer and the Laravel
    user, and URL-safe tokens of 43, 86 and 43 characters (32, 64 and 32
    random bytes), the first behind [base64:]. *)
Theorem main_secrets_shape :
  forall (crypt : string -> string -> string) (t : source),
  exists b t',
    main crypt t = Return (b, t')
    /\ exists mysql_root postgres adminer laravel_db app_key jwt_secret
              backup_key,
         passwords b
         = [("mysql_root", mysql_root); ("postgres", postgres);
            ("adminer", adminer); ("laravel_db", laravel_db);
            ("app_key", "base64:" ++ app_key);
            ("jwt_secret", jwt_secret); ("backup_key", backup_key)]
         /\ drawn_from high_alphabet 20 mysql_root
         /\ drawn_from high_alphabet 20 postgres
         /\ drawn_from plain_alphabet 16 adminer
         /\ drawn_from plain_alphabet 16 laravel_db
         /\ url_safe_token 43 app_key
         /\ url_safe_token 86 jwt_secret
         /\ url_safe_token 43 backup_key.
Proof.
  intros crypt t. run_main crypt t.
  exists p1, p2, p3, p4, k5, k6, k7.
  split; [reflexivity | ].
  repeat split; first [apply D1 | apply D2 | apply D3 | apply D4
                      | apply S5 | apply S6 | apply S7].
Qed.

(** X13. No secret of the dictionary holds a double quote, a backslash or
    a line feed, so each can stand between double quotes in the template as
    it is. *)
Theorem main_secrets_need_no_escaping :
  forall (crypt : string -> string -> string) (t : source),
  exists b t',
    main crypt t = Return (b, t')
    /\ forall key secret,
         In (key, secret) (passwords b) ->
         contains secret dquote = false
         /\ contains secret backslash = false
         /\ contains secret nl = false.
Proof.
  intros crypt t. run_main crypt t.
  set (app_key := "base64:" ++ k5).
  assert (forall c, contains "base64:" c = false -> url_safe c = false ->
                    contains app_key c = false) as Happ.
  { intros c Hprefix Hsafe. unfold app_key.
    now rewrite contains_app, Hprefix, (url_safe_token_free _ _ _ Hsafe S5). }
  clearbody app_key.
  assert (forall c, contains high_alphabet c = false ->
                    contains plain_alphabet c = false ->
                    contains "base64:" c = false ->
                    url_safe c = false ->
                    forall key secret,
                      In (key, secret)
                        [("mysql_root", p1); ("postgres", p2);
                         ("adminer", p3); ("laravel_db", p4);
                         ("app_key", app_key);
                         ("jwt_secret", k6); ("backup_key", k7)] ->
                      contains secret c = false) as Hfree.
  { intros c Hhigh Hplain Hprefix Hsafe key secret Hin. cbn [In] in Hin.
    destruct Hin as [H | [H | [H | [H | [H | [H | [H | [] ] ] ] ] ] ] ];
      injection H as _ <-;
      eauto using drawn_from_free, url_safe_token_free. }
  intros key secret Hin.
  split; [ | split].
  - exact (Hfree dquote eq_refl eq_refl eq_refl eq_refl key secret Hin).
  - exact (Hfree backslash eq_refl eq_refl eq_refl eq_refl key secret Hin).
  - exact (Hfree nl eq_refl eq_refl eq_refl eq_refl key secret Hin).
Qed.

(** X14. Every secret of the dictionary stands in the template under its
    vault key, once, and so does the hash.  (All that is asked of the C
    library's hash routine is that a hash holds no line feed.) *)
Theorem main_template_lists_every_secret :
  forall (crypt : string -> string -> string) (t : source),
    (forall word salt, contains (crypt word salt) nl = false) ->
    exists b t',
      main crypt t = Return (b, t')
      /\ (forall key vault_key,
            In (key, vault_key) vault_keys ->
            exists secret,
              getitem (passwords b) key = Return secret
              /\ fields vault_key (vault_content b) = [secret])
      /\ fields "vault_adminer_password_hash" (vault_content b)
         = [adminer_hash b].
Proof.
  intros crypt t Hcrypt. run_main crypt t.
  assert (contains p1 nl = false) as N1
    by (eapply drawn_from_free; [ | exact D1]; reflexivity).
  assert (contains p2 nl = false) as N2
    by (eapply drawn_from_free; [ | exact D2]; reflexivity).
  assert (contains p3 nl = false) as N3
    by (eapply drawn_from_free; [ | exact D3]; reflexivity).
  assert (contains p4 nl = false) as N4
    by (eapply drawn_from_free; [ | exact D4]; reflexivity).
  assert (contains k5 nl = false) as N5
    by (eapply url_safe_token_free; [ | exact S5]; reflexivity).
  assert (contains k6 nl = false) as N6
    by (eapply url_safe_token_free; [ | exact S6]; reflexivity).
  assert (contains k7 nl = false) as N7
    by (eapply url_safe_token_free; [ | exact S7]; reflexivity).
  match goal with
  | |- context [unlines ?ls] => set (lines := ls)
  end.
  assert (split_lines (unlines lines) = (lines ++ [EmptyString])%list)
    as Hsplit.
  { apply split_lines_unlines. subst lines.
    repeat (apply Forall_cons;
            [first [reflexivity
                   | apply entry_free_of_nl;
                     first [reflexivity | assumption | apply Hcrypt]
                   | idtac]
            | ]).
    apply Forall_nil. }
  unfold fields. rewrite Hsplit. subst lines.
  split.
  - intros key vault_key Hin. unfold vault_keys in Hin. cbn [In] in Hin.
    destruct Hin as [H | [H | [H | [H | [H | [H | [H | [] ] ] ] ] ] ] ];
      injection H as <- <-;
      eexists; (split; [reflexivity | ]);
      cbn -[unquote_tail];
      change (String "034"%char EmptyString) with (str1 dquote);
      try change (String "b" (String "a" (String "s" (String "e" (String "6"
                   (String "4" (String ":" (k5 ++ str1 dquote))))))))
          with (("base64:" ++ k5) ++ str1 dquote);
      now rewrite unquote_tail_quoted.
  - cbn -[unquote_tail].
    change (String "034"%char EmptyString) with (str1 dquote).
    now rewrite unquote_tail_quoted.
Qed.

Lemma main_template_lists_every_secret_sample :
  (forall word salt, contains (sample_crypt word salt) nl = false)
  /\ exists b t',
       main sample_crypt sample_source = Return (b, t')
       /\ fields "vault_adminer_password_hash" (vault_content b)
          = [adminer_hash b].
Proof.
  split; [exact sample_crypt_free_of_nl | ].
  destruct (main_template_lists_every_secret sample_crypt sample_source
              sample_crypt_free_of_nl)
    as (b & t' & Hrun & _ & Hhash).
  exists b, t'. split; [exact Hrun | exact Hhash].
Defined.


(** * Decimal numbers, and the end of [main] *)

Section Decimal.

Local Open Scope Z_scope.














End Decimal.




Lemma lower_is_y (s : string) :
  String.eqb (lower s) "y" = String.eqb s "y" || String.eqb s "Y".
Proof.
  destruct s as [ | c [ | d r] ]; [reflexivity | | ].
  - destruct c as [ [] [] [] [] [] [] [] [] ]; reflexivity.
  - cbn [lower String.eqb].
    repeat match goal with
           | |- context [Ascii.eqb ?a ?b] => destruct (Ascii.eqb a b)
           end; reflexivity.
Qed.

Lemma main_returns (crypt : string -> string -> string) (t : source) :
  exists b t', main crypt t = Return (b, t').
Proof.
  run_main_steps crypt t. eexists; eexists; reflexivity.
Qed.

(** X17. The template is written to [vault_template.yml] when the answer is
    [y] or [Y], with exactly the content rendered; on any other answer,
    the empty one included, nothing is written. *)
Theorem main_saves_only_on_yes :
  forall (crypt : string -> string -> string) (answer : string)
         (t : source),
  exists b t',
    main crypt t = Return (b, t')
    /\ main_and_save crypt answer t
       = Return
           ((b,
             if String.eqb answer "y" || String.eqb answer "Y"
             then [("vault_template.yml", vault_content b)]
             else []), t').
Proof.
  intros crypt answer t.
  destruct (main_returns crypt t) as (b & t' & Hrun).
  exists b, t'. split; [exact Hrun | ].
  unfold main_and_save. rewrite (bind_Return _ _ _ _ _ Hrun).
  unfold ret, save_template. cbv zeta. now rewrite lower_is_y.
Qed.

(** * The sanitizer after a rule *)

(** The rules for names and versions let one line feed through at the end
    of the value; the sanitizer, applied to an accepted value, removes
    it and changes nothing else. *)

Section Composition.









End Composition.






